(** * CORD-19 Data Explorer: embedding of [app.py] and [src/data_analysis.py]

    The interactive application ([app.py]) and the batch script
    ([src/data_analysis.py]) are both pandas pipelines over one CSV
    file.  A data frame is embedded as a list of rows in file order, a
    NaN/NaT cell as [None], a boolean mask as a [bool]-valued function
    used with [filter] (or as a list of booleans where the source
    names the mask), and a Python exception as the [Raise] branch of a
    small error monad.  Text is embedded as [string]; the character
    classes of [re] and [str] are the ASCII ones. *)

From Stdlib Require Import String Ascii List ZArith QArith Lia Bool Arith.
From Stdlib Require Import Permutation Sorted.
Import ListNotations.
Open Scope string_scope.
Open Scope list_scope.
Open Scope nat_scope.

Set Implicit Arguments.

(* ================================================================== *)
(** ** Python: exceptions, strings, [re], [collections.Counter] *)
(* ================================================================== *)

Module Py.

(** The exceptions the two scripts can meet. *)
Inductive exn : Type :=
| FileNotFoundError
| KeyError (column : string)
| IndexError
| ReError
| AttributeError
| EmptyDataError
| ParserError
| UnicodeDecodeError.

Inductive result (A : Type) : Type :=
| Ok (a : A)
| Raise (e : exn).
Arguments Ok {A} a.
Arguments Raise {A} e.

Definition bind {A B} (m : result A) (k : A -> result B) : result B :=
  match m with
  | Ok a => k a
  | Raise e => Raise e
  end.

(** [try: body except FileNotFoundError: handler] *)
Definition try_except_FileNotFoundError {A}
           (body : result A) (handler : result A) : result A :=
  match body with
  | Raise FileNotFoundError => handler
  | other => other
  end.

(** *** [str] *)

Definition in_range (lo hi : nat) (c : ascii) : bool :=
  (lo <=? nat_of_ascii c) && (nat_of_ascii c <=? hi).

Definition is_upper (c : ascii) : bool := in_range 65 90 c.

Definition lower_char (c : ascii) : ascii :=
  if is_upper c then ascii_of_nat (nat_of_ascii c + 32) else c.

(** [s.lower()] *)
Fixpoint lower (s : string) : string :=
  match s with
  | EmptyString => EmptyString
  | String c s' => String (lower_char c) (lower s')
  end.

(** [c.isspace()]: tab, LF, VT, FF, CR, the separators FS..US, space. *)
Definition is_space (c : ascii) : bool :=
  in_range 9 13 c || in_range 28 32 c.

(** [len(s.split())]: the number of maximal runs of non-space
    characters.  [in_run] tells whether the previous character
    belonged to a run. *)
Fixpoint count_runs (in_run : bool) (s : string) : nat :=
  match s with
  | EmptyString => 0
  | String c s' =>
      if is_space c then count_runs false s'
      else if in_run then count_runs true s'
           else S (count_runs true s')
  end.

Definition len_split (s : string) : nat := count_runs false s.

(** [sep.join(parts)] *)
Fixpoint join (sep : string) (parts : list string) : string :=
  match parts with
  | [] => ""
  | [p] => p
  | p :: rest => p ++ sep ++ join sep rest
  end.

(** [s.lstrip()] *)
Fixpoint lstrip (s : string) : string :=
  match s with
  | EmptyString => EmptyString
  | String c s' => if is_space c then lstrip s' else s
  end.

(** [s.rstrip()] *)
Fixpoint rstrip (s : string) : string :=
  match s with
  | EmptyString => EmptyString
  | String c s' =>
      match rstrip s' with
      | EmptyString => if is_space c then EmptyString else String c EmptyString
      | r => String c r
      end
  end.

(** [s.strip()] *)
Definition strip (s : string) : string := rstrip (lstrip s).

(** All the characters of [s] satisfy [p]. *)
Fixpoint all_chars (p : ascii -> bool) (s : string) : bool :=
  match s with
  | EmptyString => true
  | String c s' => p c && all_chars p s'
  end.

(** The text holds ASCII characters only: on such a text the character
    classes above and below are those of Python. *)
Definition is_ascii (s : string) : bool :=
  all_chars (fun c => nat_of_ascii c <? 128) s.

(** *** [re] *)

(** [\w] *)
Definition is_word_char (c : ascii) : bool :=
  in_range 97 122 c || in_range 65 90 c || in_range 48 57 c
  || (nat_of_ascii c =? 95).

Definition flush (run : string) : list string :=
  match run with
  | EmptyString => []
  | _ => [run]
  end.

(** The scan behind [re.findall(r'\b\w+\b', s)]: [run] is the word
    being read; it is emitted when a non-word character or the end
    of the text is met. *)
Fixpoint scan_words (run : string) (s : string) : list string :=
  match s with
  | EmptyString => flush run
  | String c s' =>
      if is_word_char c then scan_words (run ++ String c EmptyString) s'
      else flush run ++ scan_words EmptyString s'
  end.

(** [re.findall(r'\b\w+\b', s)]: the maximal runs of word
    characters, left to right. *)
Definition findall_words (s : string) : list string :=
  scan_words EmptyString s.

(** [word in stop_words] for a set literal of strings. *)
Definition in_set (w : string) (set : list string) : bool :=
  existsb (String.eqb w) set.

(** *** [list] *)

(** [l.index(x)], with [len(l)] where Python raises [ValueError]. *)
Fixpoint index (x : string) (l : list string) : nat :=
  match l with
  | [] => 0
  | y :: l' => if String.eqb y x then 0 else S (index x l')
  end.

End Py.

Import Py.

Notation "x <- m ;; k" := (Py.bind m (fun x => k))
  (at level 61, m at next level, right associativity).

(** *** [dict] in insertion order, [Counter], [sorted] *)

Section OrderedDict.
Variable K : Type.
Variable eqb : K -> K -> bool.

(** [d[k] = d.get(k, 0) + 1]: an existing key keeps its place, a new
    key goes last. *)
Fixpoint incr (k : K) (d : list (K * nat)) : list (K * nat) :=
  match d with
  | [] => [(k, 1)]
  | (k', c) :: d' =>
      if eqb k' k then (k', S c) :: d' else (k', c) :: incr k d'
  end.

(** [Counter(iterable)]: one [incr] per element, left to right. *)
Definition Counter (l : list K) : list (K * nat) :=
  fold_left (fun d k => incr k d) l [].

(** [d.get(k, 0)] *)
Fixpoint get0 (k : K) (d : list (K * nat)) : nat :=
  match d with
  | [] => 0
  | (k', c) :: d' => if eqb k' k then c else get0 k d'
  end.
End OrderedDict.

Section StableSort.
Variable A : Type.
(** [goes_first y x]: [y] has a strictly smaller sort key than [x]. *)
Variable goes_first : A -> A -> bool.

(** [x] comes from the left of everything in [l]: it passes only the
    elements that must strictly go first, so equal keys keep their
    order. *)
Fixpoint insert (x : A) (l : list A) : list A :=
  match l with
  | [] => [x]
  | y :: l' => if goes_first y x then y :: insert x l' else x :: y :: l'
  end.

(** [sorted(l, key=...)]: a stable sort. *)
Definition sorted (l : list A) : list A := fold_right insert [] l.
End StableSort.

(** [key=itemgetter(1), reverse=True] *)
Definition count_desc {K} (y x : K * nat) : bool := snd x <? snd y.

(** [Counter.most_common(n)]: [heapq.nlargest(n, items, key=count)],
    that is [sorted(items, key=count, reverse=True)[:n]]. *)
Definition most_common {K} (n : nat) (c : list (K * nat)) : list (K * nat) :=
  firstn n (sorted count_desc c).

(** [Counter(tokens).most_common(n)] *)
Definition top_n (tokens : list string) (n : nat) : list (string * nat) :=
  most_common n (Counter String.eqb tokens).

Definition sum_counts {K} (c : list (K * nat)) : nat :=
  fold_right (fun kc s => snd kc + s) 0 c.

(* ================================================================== *)
(** ** pandas: columns with missing values *)
(* ================================================================== *)

Module Pd.

(** A [datetime64] value; [None] in a column is [NaT]. *)
Record Timestamp : Type := mkTimestamp {
  ts_year : Z;
  ts_month : Z;
  ts_day : Z
}.

Definition ts_ltb (a b : Timestamp) : bool :=
  ((ts_year a <? ts_year b)
   || ((ts_year a =? ts_year b)
       && ((ts_month a <? ts_month b)
           || ((ts_month a =? ts_month b) && (ts_day a <? ts_day b)))))%Z.

(** [pd.to_datetime(text)] on one cell of text; [None] is the parse
    failure that [errors='coerce'] turns into [NaT]. *)
Class DateParser : Type := { to_datetime : string -> option Timestamp }.

(** [pd.to_datetime(col, errors='coerce')] on one cell. *)
Definition to_datetime_coerce `{DateParser} (cell : option string)
  : option Timestamp :=
  match cell with
  | None => None
  | Some s => to_datetime s
  end.

(** [re.compile(pat, re.IGNORECASE)] and [regex.search(text)], as
    [Series.str.contains(pat, case=False)] uses them; [None] is
    [re.error]. *)
Class Regex : Type := {
  regex : Type;
  re_compile : string -> option regex;
  re_search : regex -> string -> bool
}.

Definition opt_eqb {K} (eqb : K -> K -> bool) (a b : option K) : bool :=
  match a, b with
  | None, None => true
  | Some x, Some y => eqb x y
  | _, _ => false
  end.

(** [col.isin(values)] on one cell; a NaN cell is matched by a NaN
    among the values. *)
Definition isin {K} (eqb : K -> K -> bool)
           (cell : option K) (values : list (option K)) : bool :=
  existsb (opt_eqb eqb cell) values.

(** [col.dropna()] *)
Fixpoint dropna {K} (col : list (option K)) : list K :=
  match col with
  | [] => []
  | None :: col' => dropna col'
  | Some x :: col' => x :: dropna col'
  end.

(** [col.unique()]: the distinct values in order of first
    appearance, NaN among them. *)
Fixpoint unique {K} (eqb : K -> K -> bool) (col : list K) : list K :=
  match col with
  | [] => []
  | x :: col' => x :: filter (fun y => negb (eqb x y)) (unique eqb col')
  end.

(** [col.nunique()] *)
Definition nunique {K} (eqb : K -> K -> bool) (col : list (option K)) : nat :=
  length (unique eqb (dropna col)).

(** [col.value_counts()]: NaN dropped, most frequent first. *)
Definition value_counts {K} (eqb : K -> K -> bool) (col : list (option K))
  : list (K * nat) :=
  sorted count_desc (Counter eqb (dropna col)).

Definition key_asc {K V} (ltb : K -> K -> bool) (y x : K * V) : bool :=
  ltb (fst y) (fst x).

(** [counts.sort_index()] *)
Definition sort_index {K V} (ltb : K -> K -> bool) (s : list (K * V))
  : list (K * V) :=
  sorted (key_asc ltb) s.

(** [df[mask]] *)
Fixpoint boolean_index {A} (mask : list bool) (rows : list A) : list A :=
  match mask, rows with
  | b :: mask', r :: rows' =>
      if b then r :: boolean_index mask' rows' else boolean_index mask' rows'
  | _, _ => []
  end.

(** [mask1 | mask2] *)
Fixpoint mask_or (m1 m2 : list bool) : list bool :=
  match m1, m2 with
  | a :: m1', b :: m2' => (a || b) :: mask_or m1' m2'
  | _, _ => []
  end.

(** [col.min()] and [col.max()]: NaN skipped, NaN for no value. *)
Definition extremum {K} (better : K -> K -> bool) (col : list (option K))
  : option K :=
  match dropna col with
  | [] => None
  | x :: xs => Some (fold_left (fun m y => if better y m then y else m) xs x)
  end.

Definition min_Z := extremum Z.ltb.
Definition max_Z := extremum (fun y m => Z.ltb m y).
Definition min_ts := extremum ts_ltb.
Definition max_ts := extremum (fun y m => ts_ltb m y).

(** [col.mean()] of an integer column: NaN when it is empty. *)
Definition mean (col : list nat) : option Q :=
  match col with
  | [] => None
  | _ => Some (Z.of_nat (fold_right Nat.add 0 col) # Pos.of_nat (length col))
  end.

(** [col.mode()]: the most frequent values, ascending; NaN dropped. *)
Definition mode {K} (eqb ltb : K -> K -> bool) (col : list (option K))
  : list K :=
  let counts := Counter eqb (dropna col) in
  let top := fold_right Nat.max 0 (map snd counts) in
  sorted ltb (map fst (filter (fun kc => snd kc =? top) counts)).

(** [s.iloc[0]] *)
Definition iloc0 {K} (s : list K) : result K :=
  match s with
  | [] => Raise IndexError
  | x :: _ => Ok x
  end.

(** The dtype [read_csv] gives a column of text cells: [object] when a
    cell holds text or the column has no cell, [float64] when every
    cell is missing.  A view of a frame keeps the dtypes of the frame. *)
Definition is_object_dtype (col : list (option string)) : bool :=
  match col with
  | [] => true
  | _ => existsb (fun cell => match cell with Some _ => true | None => false end)
                 col
  end.

(** [col.str]: the accessor exists on [object] columns only. *)
Definition str_accessor (object_dtype : bool) (col : list (option string))
  : result (list (option string)) :=
  if object_dtype then Ok col else Raise AttributeError.

(** [na=False]: a NaN cell gives [False]. *)
Definition cell_contains `{Regex} (rx : regex) (cell : option string) : bool :=
  match cell with
  | None => false
  | Some s => re_search rx s
  end.

(** [col.str.contains(pat, case=False, na=False)]: the accessor is
    taken first, then the pattern is compiled, before any cell is
    looked at. *)
Definition str_contains `{Regex} (pat : string) (object_dtype : bool)
           (col : list (option string)) : result (list bool) :=
  cells <- str_accessor object_dtype col ;;
  match re_compile pat with
  | None => Raise ReError
  | Some rx => Ok (map (cell_contains rx) cells)
  end.

(** [s.head(n)] *)
Definition head {A} (n : nat) (s : list A) : list A := firstn n s.

(** [col.dt.to_period('M')] on one cell: the year and the month. *)
Definition to_period_M (t : option Timestamp) : option (Z * Z) :=
  match t with
  | None => None
  | Some ts => Some (ts_year ts, ts_month ts)
  end.

Definition period_eqb (a b : Z * Z) : bool :=
  ((fst a =? fst b) && (snd a =? snd b))%Z.

Definition period_ltb (a b : Z * Z) : bool :=
  ((fst a <? fst b) || ((fst a =? fst b) && (snd a <? snd b)))%Z.

(** [df.groupby(keys).size()]: rows with a NaN key belong to no group,
    the groups come in ascending order of their key. *)
Definition groupby_size {K} (eqb ltb : K -> K -> bool) (keys : list (option K))
  : list (K * nat) :=
  sorted (key_asc ltb) (Counter eqb (dropna keys)).

(** [df.groupby(key)[col].mean()]: one mean per key, in ascending
    order of the keys. *)
Definition groupby_mean {K} (eqb ltb : K -> K -> bool)
           (keys : list (option K)) (vals : list nat) : list (K * option Q) :=
  map (fun k =>
         (k, mean (map snd (filter (fun kv => opt_eqb eqb (fst kv) (Some k))
                                   (combine keys vals)))))
      (sorted ltb (unique eqb (dropna keys))).

End Pd.

Import Pd.

(* ================================================================== *)
(** ** The data model *)
(* ================================================================== *)

(** One line of [data/sample_metadata.csv] as [pd.read_csv] gives it:
    text cells, an empty cell being NaN. *)
Record RawRow : Type := mkRawRow {
  raw_title : option string;
  raw_abstract : option string;
  raw_authors : option string;
  raw_journal : option string;
  raw_source : option string;
  raw_publish_time : option string
}.

(** The table a file holds: the header and the lines; a file of no
    byte is the table without header and without line.  A field of
    [RawRow] whose column is not in the header is never read: the
    access to such a column raises [KeyError] first. *)
Record RawFrame : Type := mkRawFrame {
  columns : list string;
  rows : list RawRow
}.

(** What can be wrong, for the CSV reader, with a file that exists. *)
Inductive Damage : Type :=
| BadStructure
| BadEncoding.

(** A file that exists: one the reader cannot tokenize or decode, or
    one that holds a table. *)
Inductive File : Type :=
| Damaged (d : Damage)
| Table (content : RawFrame).

(** The file system at the path the scripts read: [None] when
    there is no such file. *)
Definition FileSystem : Type := option File.

(** A row of the frame once the derived columns are added. *)
Record Row : Type := mkRow {
  title : option string;
  abstract : option string;
  authors : option string;
  journal : option string;
  source : option string;
  publish_time : option Timestamp;
  year : option Z;
  abstract_word_count : nat;
  title_word_count : nat
}.

(** [pd.read_csv(path)]: a table without header has no column to
    parse. *)
Definition read_csv (fs : FileSystem) : result RawFrame :=
  match fs with
  | None => Raise FileNotFoundError
  | Some (Damaged BadStructure) => Raise ParserError
  | Some (Damaged BadEncoding) => Raise UnicodeDecodeError
  | Some (Table df) =>
      match columns df with
      | [] => Raise EmptyDataError
      | _ => Ok df
      end
  end.

(** [df[col]]: [KeyError] for a column the frame does not have. *)
Definition getitem (df : RawFrame) (col : string) : result unit :=
  if in_set col (columns df) then Ok tt else Raise (KeyError col).

(** [lambda x: len(str(x).split()) if pd.notna(x) and x != '' else 0] *)
Definition word_count (x : option string) : nat :=
  match x with
  | None => 0
  | Some s => if String.eqb s "" then 0 else len_split s
  end.

(** [df['publish_time'].dt.year] on one cell. *)
Definition dt_year (t : option Timestamp) : option Z :=
  match t with
  | None => None
  | Some ts => Some (ts_year ts)
  end.

(** The stop words of [app.py] (lines 72-74 and 247-249). *)
Definition app_stop_words : list string :=
  ["the"; "a"; "an"; "and"; "or"; "but"; "in"; "on"; "at"; "to"; "for";
   "of"; "with"; "by"; "is"; "are"; "was"; "were"; "be"; "been"; "have";
   "has"; "had"; "do"; "does"; "did"; "will"; "would"; "could"; "should";
   "may"; "might"; "can"; "this"; "that"; "these"; "those"].

(** The stop words of [data_analysis.py] (line 178). *)
Definition batch_stop_words : list string :=
  ["the"; "a"; "an"; "and"; "or"; "but"; "in"; "on"; "at"; "to"; "for";
   "of"; "with"; "by"; "is"; "are"; "was"; "were"; "be"; "been"; "have";
   "has"; "had"; "do"; "does"; "did"; "will"; "would"; "could"; "should";
   "may"; "might"; "can"; "this"; "that"; "these"; "those";
   "i"; "you"; "he"; "she"; "it"; "we"; "they"; "me"; "him"; "her"; "us";
   "them"].

(** [[word for word in words if word not in stop_words and len(word) > 2]] *)
Definition keep_word (stop_words : list string) (word : string) : bool :=
  negb (in_set word stop_words) && (2 <? String.length word).

(** [' '.join(df['title'].dropna().astype(str))] *)
Definition join_titles (titles : list (option string)) : string :=
  join " " (dropna titles).

(* ================================================================== *)
(** ** [app.py] *)
(* ================================================================== *)

Module App.

(** Lines 52-59: the derived columns of one line. *)
Definition derive `{DateParser} (r : RawRow) : Row :=
  let t := to_datetime_coerce (raw_publish_time r) in
  {| title := raw_title r;
     abstract := raw_abstract r;
     authors := raw_authors r;
     journal := raw_journal r;
     source := raw_source r;
     publish_time := t;
     year := dt_year t;
     abstract_word_count := word_count (raw_abstract r);
     title_word_count := word_count (raw_title r) |}.

(** [load_data()], lines 47-63.  [Ok None] is the handled failure:
    the error is shown with [st.error] and [None] is returned. *)
Definition load_data `{DateParser} (fs : FileSystem)
  : result (option (list Row)) :=
  try_except_FileNotFoundError
    (df <- read_csv fs ;;
     _ <- getitem df "publish_time" ;;
     _ <- getitem df "abstract" ;;
     _ <- getitem df "title" ;;
     Ok (Some (map derive (rows df))))
    (Ok None).

(** The sidebar selections, lines 100-121. *)
Record FilterCriteria : Type := mkCriteria {
  selected_years : list Z;
  selected_journals : list (option string);
  selected_sources : list (option string)
}.

(** [sorted(df['year'].dropna().unique())] *)
Definition years (df : list Row) : list Z :=
  sorted Z.ltb (unique Z.eqb (dropna (map year df))).

(** [df['journal'].unique()] *)
Definition journals (df : list Row) : list (option string) :=
  unique (opt_eqb String.eqb) (map journal df).

(** [df['source'].unique()] *)
Definition sources (df : list Row) : list (option string) :=
  unique (opt_eqb String.eqb) (map source df).

(** The [default=] of the three multiselects: everything selected. *)
Definition default_criteria (df : list Row) : FilterCriteria :=
  {| selected_years := years df;
     selected_journals := journals df;
     selected_sources := sources df |}.

(** The mask of lines 125-127 on one row. *)
Definition mask (c : FilterCriteria) (r : Row) : bool :=
  isin Z.eqb (year r) (map Some (selected_years c))
  && isin String.eqb (journal r) (selected_journals c)
  && isin String.eqb (source r) (selected_sources c).

(** [filtered_df = df[...]], lines 124-128. *)
Definition filtered_df (c : FilterCriteria) (df : list Row) : list Row :=
  filter (mask c) df.

(** The four metrics of the overview tab, lines 137-150. *)
Record Summary : Type := mkSummary {
  total : nat;
  unique_journal_count : nat;
  year_min : option Z;
  year_max : option Z;
  avg_abstract_words : option Q
}.

Definition summary (view : list Row) : Summary :=
  {| total := length view;
     unique_journal_count := nunique String.eqb (map journal view);
     year_min := min_Z (map year view);
     year_max := max_Z (map year view);
     avg_abstract_words := mean (map abstract_word_count view) |}.

(** [filtered_df['year'].value_counts().sort_index()], line 154. *)
Definition year_counts (view : list Row) : list (Z * nat) :=
  sort_index Z.ltb (value_counts Z.eqb (map year view)).

(** Lines 246-250 on the joined titles. *)
Definition tokenize (text : string) : list string :=
  filter (keep_word app_stop_words) (findall_words (lower text)).

(** Lines 243-250. *)
Definition title_words (titles : list (option string)) : list string :=
  tokenize (join_titles titles).

(** Lines 252-254: [[]] stands for the branch not taken. *)
Definition top_words (words : list string) : list (string * nat) :=
  match words with
  | [] => []
  | _ => top_n words 20
  end.

(** The search of the data tab, lines 298-305, on the view
    [filtered_df] of the loaded frame [df], whose dtypes the view
    keeps. *)
Definition search `{Regex} (search_term : string) (df view : list Row)
  : result (list Row) :=
  if String.eqb search_term "" then Ok view
  else
    m_title <- str_contains search_term (is_object_dtype (map title df))
                            (map title view) ;;
    m_abstract <- str_contains search_term (is_object_dtype (map abstract df))
                               (map abstract view) ;;
    Ok (boolean_index (mask_or m_title m_abstract) view).

(** [filtered_df['journal'].value_counts().head(10)], line 169. *)
Definition journal_counts (view : list Row) : list (string * nat) :=
  head 10 (value_counts String.eqb (map journal view)).

(** [filtered_df['journal'].value_counts()], line 216. *)
Definition journal_dist (view : list Row) : list (string * nat) :=
  value_counts String.eqb (map journal view).

(** [filtered_df.groupby(filtered_df['publish_time'].dt.to_period('M')).size()],
    line 188. *)
Definition monthly_data (view : list Row) : list ((Z * Z) * nat) :=
  groupby_size period_eqb period_ltb
               (map (fun r => to_period_M (publish_time r)) view).

(** [filtered_df.groupby('year')['abstract_word_count'].mean()], line 201. *)
Definition abstract_trend (view : list Row) : list (Z * option Q) :=
  groupby_mean Z.eqb Z.ltb (map year view) (map abstract_word_count view).

(** [create_word_cloud(text)], lines 65-82: [None] where the function
    returns [None], else the text it hands to [WordCloud.generate]
    (the drawing itself is left out). *)
Definition create_word_cloud (text : string) : option string :=
  if String.eqb text "" || String.eqb (strip text) "" then None
  else
    match tokenize text with
    | [] => None
    | words => Some (join " " words)
    end.

(** Lines 252 and 271: the word cloud of the titles is asked for only
    under [if words:]. *)
Definition title_word_cloud (titles : list (option string)) : option string :=
  match title_words titles with
  | [] => None
  | _ => create_word_cloud (join_titles titles)
  end.

End App.

(* ================================================================== *)
(** ** [src/data_analysis.py] *)
(* ================================================================== *)

Module Batch.

(** [fillna('')] on one cell. *)
Definition fillna_empty (x : option string) : option string :=
  match x with
  | None => Some ""
  | some => some
  end.

(** [load_data], lines 27-32: [read_csv] with nothing caught. *)
Definition load_data (fs : FileSystem) : result RawFrame := read_csv fs.

(** Lines 84-104 of [clean_data] on one line. *)
Definition derive `{DateParser} (r : RawRow) : Row :=
  let a := fillna_empty (raw_abstract r) in
  let t := to_datetime_coerce (raw_publish_time r) in
  {| title := raw_title r;
     abstract := a;
     authors := raw_authors r;
     journal := raw_journal r;
     source := raw_source r;
     publish_time := t;
     year := dt_year t;
     abstract_word_count := word_count a;
     title_word_count := word_count (raw_title r) |}.

(** The rows [dropna(subset=['title', 'publish_time'])] keeps. *)
Definition has_critical_data (r : Row) : bool :=
  match title r, publish_time r with
  | Some _, Some _ => true
  | _, _ => false
  end.

(** Lines 84-109 once the columns are known to exist. *)
Definition clean_rows `{DateParser} (raw : list RawRow) : list Row :=
  filter has_critical_data (map derive raw).

(** [load_data] followed by [clean_data]: nothing is caught. *)
Definition clean_data `{DateParser} (fs : FileSystem) : result (list Row) :=
  df <- read_csv fs ;;
  _ <- getitem df "abstract" ;;
  _ <- getitem df "publish_time" ;;
  _ <- getitem df "title" ;;
  Ok (clean_rows (rows df)).

(** Line 123. *)
Definition analyze_publications_by_year (cleaned : list Row)
  : list (Z * nat) :=
  sort_index Z.ltb (value_counts Z.eqb (map year cleaned)).

(** Lines 175-179. *)
Definition tokenize (text : string) : list string :=
  filter (keep_word batch_stop_words) (findall_words (lower text)).

(** Lines 172-179. *)
Definition title_words (titles : list (option string)) : list string :=
  tokenize (join_titles titles).

(** Lines 182-183. *)
Definition top_words (words : list string) : list (string * nat) :=
  top_n words 20.

(** [analyze_top_journals], line 148. *)
Definition analyze_top_journals (cleaned : list Row) : list (string * nat) :=
  head 10 (value_counts String.eqb (map journal cleaned)).

(** [analyze_sources], line 234. *)
Definition analyze_sources (cleaned : list Row) : list (string * nat) :=
  value_counts String.eqb (map source cleaned).

(** [analyze_word_frequency]: the table it prints and returns (the
    drawing of the word cloud is left out). *)
Definition analyze_word_frequency (cleaned : list Row) : list (string * nat) :=
  top_words (title_words (map title cleaned)).

(** What [generate_summary_report] prints, lines 255-260. *)
Record Report : Type := mkReport {
  total : nat;
  first_year : option Z;
  last_year : option Z;
  most_active_year : Z;
  avg_abstract_words : option Q;
  most_common_journal : string;
  primary_source : string
}.

(** [generate_summary_report], lines 255-260, in the order of the
    prints: [NaT.year] is NaN, [.iloc[0]] of an empty [mode()]
    raises. *)
Definition generate_summary_report (cleaned : list Row) : result Report :=
  let n := length cleaned in
  let y0 := dt_year (min_ts (map publish_time cleaned)) in
  let y1 := dt_year (max_ts (map publish_time cleaned)) in
  active <- iloc0 (mode Z.eqb Z.ltb (map year cleaned)) ;;
  let avg := mean (map abstract_word_count cleaned) in
  j <- iloc0 (mode String.eqb String.ltb (map journal cleaned)) ;;
  s <- iloc0 (mode String.eqb String.ltb (map source cleaned)) ;;
  Ok {| total := n; first_year := y0; last_year := y1;
        most_active_year := active; avg_abstract_words := avg;
        most_common_journal := j; primary_source := s |}.

End Batch.

(* ================================================================== *)
(** ** Vocabulary of the properties *)
(* ================================================================== *)

(** [l1] is [l2] with some elements left out, the others in order. *)
Inductive subseq {A : Type} : list A -> list A -> Prop :=
| subseq_nil : subseq [] []
| subseq_skip : forall x l1 l2, subseq l1 l2 -> subseq l1 (x :: l2)
| subseq_take : forall x l1 l2, subseq l1 l2 -> subseq (x :: l1) (x :: l2).

Definition has_year (r : Row) : bool :=
  match year r with
  | Some _ => true
  | None => false
  end.

Definition both_texts_absent (r : Row) : Prop :=
  title r = None /\ abstract r = None.

(** The derived columns of a row agree with its date. *)
Definition year_of_date (r : Row) : Prop := year r = dt_year (publish_time r).

(** The test of the search on one row, for a compiled pattern. *)
Definition matches `{Regex} (rx : regex) (r : Row) : bool :=
  cell_contains rx (title r) || cell_contains rx (abstract r).

(** A lower-case word character: what a token is made of. *)
Definition is_token_char (c : ascii) : bool :=
  is_word_char c && negb (is_upper c).

(** A row with [fillna('')] applied to its abstract. *)
Definition with_abstract_filled (r : Row) : Row :=
  {| title := title r;
     abstract := Batch.fillna_empty (abstract r);
     authors := authors r;
     journal := journal r;
     source := source r;
     publish_time := publish_time r;
     year := year r;
     abstract_word_count := abstract_word_count r;
     title_word_count := title_word_count r |}.

(** The derived columns of a row agree with the cells they come from. *)
Definition derived_columns_consistent (r : Row) : Prop :=
  year r = dt_year (publish_time r)
  /\ abstract_word_count r = word_count (abstract r)
  /\ title_word_count r = word_count (title r).

(** The columns [load_data] reads. *)
Definition columns_read : list string := ["publish_time"; "abstract"; "title"].

(** The columns [clean_data] reads, in the order it reads them. *)
Definition batch_columns_read : list string :=
  ["abstract"; "publish_time"; "title"].

(** [c] is the first column of [wanted] that the header [cols] lacks. *)
Definition first_missing (wanted cols : list string) (c : string) : Prop :=
  exists before after,
    wanted = before ++ c :: after /\ incl before cols /\ ~ In c cols.

(** The columns the input contract asks for. *)
Definition required_columns : list string :=
  ["title"; "abstract"; "authors"; "journal"; "source"; "publish_time"].

(** Order of two entries of a frequency table over [tokens]: the larger
    count first, and for equal counts the token met first. *)
Definition frequency_order (tokens : list string) (a b : string * nat) : Prop :=
  snd b < snd a \/ (snd a = snd b /\ index (fst a) tokens < index (fst b) tokens).

(** The pronouns [data_analysis.py] has among its stop words and
    [app.py] has not. *)
Definition pronouns : list string :=
  ["i"; "you"; "he"; "she"; "it"; "we"; "they"; "me"; "him"; "her"; "us";
   "them"].

(* ================================================================== *)
(** ** Concrete library instances, to run the pipelines *)
(* ================================================================== *)

Module Sample.

Definition digit (c : ascii) : option Z :=
  if in_range 48 57 c then Some (Z.of_nat (nat_of_ascii c - 48)) else None.

Fixpoint number (acc : Z) (s : string) : option Z :=
  match s with
  | EmptyString => Some acc
  | String c s' =>
      match digit c with
      | Some d => number (10 * acc + d)%Z s'
      | None => None
      end
  end.

(** Dates written [YYYY-MM-DD], the format of the metadata file. *)
Definition iso_date (s : string) : option Timestamp :=
  if negb (String.length s =? 10) then None
  else if negb (String.eqb (substring 4 1 s) "-"
                && String.eqb (substring 7 1 s) "-") then None
  else
    match number 0 (substring 0 4 s), number 0 (substring 5 2 s),
          number 0 (substring 8 2 s) with
    | Some y, Some m, Some d =>
        if ((1 <=? m) && (m <=? 12) && (1 <=? d) && (d <=? 31))%Z
        then Some (mkTimestamp y m d) else None
    | _, _, _ => None
    end.

#[export] Instance iso_parser : DateParser := {| to_datetime := iso_date |}.

Fixpoint occurs_in (needle hay : string) : bool :=
  match hay with
  | EmptyString => String.eqb needle ""
  | String _ hay' => String.prefix needle hay || occurs_in needle hay'
  end.

(** Patterns without metacharacters match as plain text whatever the
    case; a lone opening parenthesis does not compile. *)
#[export] Instance plain_regex : Regex := {|
  regex := string;
  re_compile := fun pat => if String.eqb pat "(" then None else Some (lower pat);
  re_search := fun rx text => occurs_in rx (lower text)
|}.

Definition row (t a j s d : option string) : RawRow :=
  {| raw_title := t; raw_abstract := a; raw_authors := Some "Doe J";
     raw_journal := j; raw_source := s; raw_publish_time := d |}.

Definition lines : list RawRow :=
  [ row (Some "Novel Virus Study") (Some "We study the virus")
        (Some "A") (Some "PMC") (Some "2020-03-15");
    row (Some "Vaccine trial") None (Some "A") (Some "PMC")
        (Some "spring 2020");
    row None None (Some "B") None (Some "2021-01-02") ].

Definition frame : RawFrame :=
  {| columns := required_columns; rows := lines |}.

(** The same file without its [publish_time] column. *)
Definition frame_without_publish_time : RawFrame :=
  {| columns := ["title"; "abstract"; "authors"; "journal"; "source"];
     rows := lines |}.

(** The file of no byte. *)
Definition empty_file : RawFrame := {| columns := []; rows := [] |}.

(** The store [app.py] loads from [frame]. *)
Definition store : list Row := map App.derive lines.

(** A store of one paper that has neither title nor abstract. *)
Definition untitled_store : list Row :=
  map App.derive [row None None (Some "B") None (Some "2021-01-02")].

(** A selection of one year, one journal and one source. *)
Definition narrow_criteria : App.FilterCriteria :=
  {| App.selected_years := [2020%Z];
     App.selected_journals := [Some "A"];
     App.selected_sources := [Some "PMC"] |}.

End Sample.

(* ================================================================== *)
(** * Properties *)
(* ================================================================== *)

Example sample_store_years : map year Sample.store = [Some 2020%Z; None; Some 2021%Z].
Proof. reflexivity. Qed.

Example sample_store_word_counts :
  map abstract_word_count Sample.store = [4; 0; 0]
  /\ map title_word_count Sample.store = [3; 2; 0].
Proof. split; reflexivity. Qed.

Example findall_words_example :
  findall_words (lower "COVID-19: the Novel_virus, in 2 cats!")
  = ["covid"; "19"; "the"; "novel_virus"; "in"; "2"; "cats"].
Proof. reflexivity. Qed.

Example len_split_example : len_split "  two   words " = 2.
Proof. reflexivity. Qed.

(* ------------------------------------------------------------------ *)
(** ** Masks and subsequences *)
(* ------------------------------------------------------------------ *)

Section FilterFacts.
Variable A : Type.
Implicit Types (f g : A -> bool) (l : list A).

Lemma subseq_refl l : subseq l l.
Proof. induction l; constructor; assumption. Qed.

Lemma subseq_filter f l : subseq (filter f l) l.
Proof.
  induction l as [|x l IH]; simpl.
  - constructor.
  - destruct (f x); constructor; exact IH.
Qed.

Lemma subseq_filter_weaken f g l :
  (forall x, In x l -> f x = true -> g x = true) ->
  subseq (filter f l) (filter g l).
Proof.
  induction l as [|x l IH]; simpl; intros Hfg.
  - constructor.
  - assert (IH' : subseq (filter f l) (filter g l)) by (apply IH; auto).
    destruct (f x) eqn:Hf.
    + rewrite (Hfg x (or_introl eq_refl) Hf). now constructor.
    + destruct (g x); [now constructor | exact IH'].
Qed.

Lemma subseq_In l1 l2 (x : A) : subseq l1 l2 -> In x l1 -> In x l2.
Proof.
  induction 1; simpl; intuition.
Qed.

Lemma subseq_length l1 l2 : subseq l1 l2 -> length l1 <= length l2.
Proof. induction 1; simpl; lia. Qed.

Lemma existsb_incl f (l1 l2 : list A) :
  incl l1 l2 -> existsb f l1 = true -> existsb f l2 = true.
Proof.
  intros Hincl H. apply existsb_exists in H as (x & Hx & Hfx).
  apply existsb_exists. exists x. split; [apply Hincl|]; assumption.
Qed.

Lemma filter_filter f g l :
  filter f (filter g l) = filter (fun x => g x && f x) l.
Proof.
  induction l as [|x l IH]; simpl; [reflexivity|].
  destruct (g x); simpl; [destruct (f x)|]; now rewrite IH.
Qed.

End FilterFacts.

Lemma opt_eqb_string_true (a b : option string) :
  opt_eqb String.eqb a b = true <-> a = b.
Proof.
  destruct a as [x|], b as [y|]; simpl; try (split; congruence).
  rewrite String.eqb_eq. split; congruence.
Qed.

Lemma opt_eqb_Z_true (a b : option Z) :
  opt_eqb Z.eqb a b = true <-> a = b.
Proof.
  destruct a as [x|], b as [y|]; simpl; try (split; congruence).
  rewrite Z.eqb_eq. split; congruence.
Qed.

Lemma isin_incl {K} (eqb : K -> K -> bool) cell (v1 v2 : list (option K)) :
  incl v1 v2 -> isin eqb cell v1 = true -> isin eqb cell v2 = true.
Proof. apply existsb_incl. Qed.

Lemma mask_monotone (c1 c2 : App.FilterCriteria) (r : Row) :
  incl (App.selected_years c1) (App.selected_years c2) ->
  incl (App.selected_journals c1) (App.selected_journals c2) ->
  incl (App.selected_sources c1) (App.selected_sources c2) ->
  App.mask c1 r = true -> App.mask c2 r = true.
Proof.
  intros Hy Hj Hs. unfold App.mask.
  rewrite !andb_true_iff. intros [[H1 H2] H3].
  repeat split; eapply isin_incl; eauto.
  now apply incl_map.
Qed.

(* ------------------------------------------------------------------ *)
(** ** Tokenizer *)
(* ------------------------------------------------------------------ *)

Lemma in_set_In (w : string) (set : list string) :
  in_set w set = true <-> In w set.
Proof.
  unfold in_set. rewrite existsb_exists. split.
  - intros (x & Hx & He). apply String.eqb_eq in He. now subst.
  - intros H. exists w. split; [assumption | apply String.eqb_refl].
Qed.

Lemma keep_word_spec (stop : list string) (w : string) :
  keep_word stop w = true <-> ~ In w stop /\ 2 < String.length w.
Proof.
  unfold keep_word. rewrite andb_true_iff, negb_true_iff, Nat.ltb_lt.
  rewrite <- in_set_In. destruct (in_set w stop); intuition congruence.
Qed.

Lemma filter_keep_word (stop : list string) (words : list string) :
  Forall (fun w => ~ In w stop /\ 2 < String.length w)
         (filter (keep_word stop) words).
Proof.
  apply Forall_forall. intros w Hw.
  apply filter_In in Hw as [_ Hw]. now apply keep_word_spec.
Qed.

Lemma join_titles_all_null (k : nat) : join_titles (repeat None k) = "".
Proof.
  unfold join_titles. induction k as [|k IH]; simpl; [reflexivity | exact IH].
Qed.

Lemma in_set_app (w : string) (s1 s2 : list string) :
  in_set w (s1 ++ s2) = in_set w s1 || in_set w s2.
Proof. unfold in_set. apply existsb_app. Qed.

(** The batch tokenizer is the application's followed by the removal
    of the pronouns. *)
Lemma batch_tokenize_refines_app (text : string) :
  Batch.tokenize text
  = filter (fun w => negb (in_set w pronouns)) (App.tokenize text).
Proof.
  unfold Batch.tokenize, App.tokenize.
  rewrite filter_filter. apply filter_ext. intros w.
  unfold keep_word.
  change batch_stop_words with (app_stop_words ++ pronouns).
  rewrite in_set_app, negb_orb.
  destruct (in_set w app_stop_words), (in_set w pronouns),
    (2 <? String.length w); reflexivity.
Qed.

(** C6: against the stop words with the pronouns, those of the batch
    script, the batch tokenizer does what is asked for every text: no
    stop word, no word of two characters or fewer, a subsequence of the
    words [re.findall] extracts from the lowered text, and no token for
    the empty text or for titles that are all missing.  The
    application keeps the length bound, the order and the empty cases,
    but "Are you safe" gives it the token "you", a stop word. *)
Theorem app_tokenize_keeps_stop_word :
  (forall text,
      Forall (fun w => ~ In w batch_stop_words /\ 2 < String.length w)
             (Batch.tokenize text)
      /\ subseq (Batch.tokenize text) (findall_words (lower text)))
  /\ (forall text,
      Forall (fun w => ~ In w app_stop_words /\ 2 < String.length w)
             (App.tokenize text)
      /\ subseq (App.tokenize text) (findall_words (lower text)))
  /\ App.tokenize "" = [] /\ Batch.tokenize "" = []
  /\ (forall k, App.title_words (repeat None k) = []
                /\ Batch.title_words (repeat None k) = [])
  /\ App.tokenize "Are you safe" = ["you"; "safe"]
  /\ In "you" (App.tokenize "Are you safe")
  /\ In "you" batch_stop_words
  /\ In "you" pronouns.
Proof.
  split; [intros text; split; [apply filter_keep_word | apply subseq_filter]|].
  split; [intros text; split; [apply filter_keep_word | apply subseq_filter]|].
  split; [reflexivity|]. split; [reflexivity|]. split.
  - intros k. unfold App.title_words, Batch.title_words.
    now rewrite join_titles_all_null.
  - split; [reflexivity|]. split; [simpl; tauto|].
    split; apply in_set_In; reflexivity.
Qed.

Example tokenize_example :
  App.tokenize "The Impact of COVID-19 on US cats" = ["impact"; "covid"; "cats"].
Proof. reflexivity. Qed.

(** C8: narrowing the three selections narrows the filtered view: the
    view of the smaller criteria is a subsequence of the view of the
    larger ones. *)
Theorem filtered_df_monotone (c1 c2 : App.FilterCriteria) (df : list Row) :
  incl (App.selected_years c1) (App.selected_years c2) ->
  incl (App.selected_journals c1) (App.selected_journals c2) ->
  incl (App.selected_sources c1) (App.selected_sources c2) ->
  subseq (App.filtered_df c1 df) (App.filtered_df c2 df).
Proof.
  intros Hy Hj Hs. unfold App.filtered_df.
  apply subseq_filter_weaken. intros r _.
  now apply mask_monotone.
Qed.

Lemma filtered_df_monotone_witness :
  incl (App.selected_years Sample.narrow_criteria)
       (App.selected_years (App.default_criteria Sample.store))
  /\ App.filtered_df Sample.narrow_criteria Sample.store = firstn 1 Sample.store
  /\ subseq (App.filtered_df Sample.narrow_criteria Sample.store)
            (App.filtered_df (App.default_criteria Sample.store) Sample.store).
Proof.
  split; [|split].
  - intros y Hy. vm_compute in *. tauto.
  - reflexivity.
  - apply (filtered_df_monotone Sample.narrow_criteria
             (App.default_criteria Sample.store) Sample.store);
      intros y Hy; vm_compute in *; tauto.
Defined.

(* ------------------------------------------------------------------ *)
(** ** The stable sort *)
(* ------------------------------------------------------------------ *)

Section SortFacts.
Variable A : Type.
Variable goes_first : A -> A -> bool.

Lemma insert_perm (x : A) (l : list A) :
  Permutation (insert goes_first x l) (x :: l).
Proof.
  induction l as [|y l IH]; simpl.
  - apply Permutation_refl.
  - destruct (goes_first y x).
    + rewrite IH. apply perm_swap.
    + apply Permutation_refl.
Qed.

Lemma sorted_perm (l : list A) : Permutation (sorted goes_first l) l.
Proof.
  induction l as [|x l IH]; simpl.
  - constructor.
  - rewrite insert_perm. now constructor.
Qed.

Lemma sorted_In (x : A) (l : list A) : In x (sorted goes_first l) <-> In x l.
Proof.
  split; apply Permutation_in; [|symmetry]; apply sorted_perm.
Qed.

Lemma sorted_length (l : list A) : length (sorted goes_first l) = length l.
Proof. apply Permutation_length, sorted_perm. Qed.

(** Stability: [earlier] is the order of the input. *)
Variable earlier : A -> A -> Prop.

Hypothesis goes_first_trans :
  forall a b c, goes_first a b = true -> goes_first b c = true ->
                goes_first a c = true.
Hypothesis goes_first_cotrans :
  forall a b c, goes_first a c = true ->
                goes_first a b = true \/ goes_first b c = true.

Definition stable_order (a b : A) : Prop :=
  goes_first a b = true \/ (goes_first b a = false /\ earlier a b).

Lemma insert_stable (x : A) (s : list A) :
  StronglySorted stable_order s ->
  Forall (earlier x) s ->
  StronglySorted stable_order (insert goes_first x s).
Proof.
  induction s as [|y s IH]; simpl; intros Hs Hx.
  - repeat constructor.
  - inversion Hs as [|? ? Hs' Hy]; subst.
    inversion Hx as [|? ? Hxy Hxs]; subst.
    destruct (goes_first y x) eqn:Hyx.
    + constructor; [now apply IH|].
      apply Forall_forall. intros z Hz.
      apply (Permutation_in _ (insert_perm x s)) in Hz as [<-|Hz].
      * now left.
      * rewrite Forall_forall in Hy. now apply Hy.
    + constructor; [assumption|].
      constructor; [right; now split|].
      rewrite Forall_forall in *. intros z Hz. right. split; [|now apply Hxs].
      destruct (goes_first z x) eqn:Hzx; [|reflexivity].
      destruct (Hy z Hz) as [Hyz | [Hzy _]].
      * rewrite (goes_first_trans Hyz Hzx) in Hyx. discriminate.
      * destruct (goes_first_cotrans y Hzx); congruence.
Qed.

Lemma sorted_stable (l : list A) :
  StronglySorted earlier l -> StronglySorted stable_order (sorted goes_first l).
Proof.
  induction l as [|x l IH]; simpl; intros Hl.
  - constructor.
  - inversion Hl as [|? ? Hl' Hx]; subst.
    apply insert_stable; [now apply IH|].
    rewrite Forall_forall in *. intros z Hz. apply Hx.
    now apply sorted_In.
Qed.

End SortFacts.

Lemma subseq_firstn {A} (n : nat) (l : list A) : subseq (firstn n l) l.
Proof.
  revert n. induction l as [|y l IHl]; intros [|n]; simpl.
  - apply subseq_nil.
  - apply subseq_nil.
  - apply subseq_skip, (IHl 0).
  - apply subseq_take, IHl.
Qed.

Lemma StronglySorted_firstn {A} (R : A -> A -> Prop) (n : nat) (l : list A) :
  StronglySorted R l -> StronglySorted R (firstn n l).
Proof.
  revert n. induction l as [|x l IH]; intros [|n] H; simpl; try constructor.
  - inversion H; subst. now apply IH.
  - inversion H as [|? ? _ Hx]; subst.
    rewrite Forall_forall in *. intros z Hz. apply Hx.
    eapply subseq_In; [apply subseq_firstn | exact Hz].
Qed.

Lemma StronglySorted_weaken {A} (R S : A -> A -> Prop) (l : list A) :
  (forall a b, In a l -> In b l -> R a b -> S a b) ->
  StronglySorted R l -> StronglySorted S l.
Proof.
  induction l as [|x l IH]; intros HRS H; [constructor|].
  inversion H as [|? ? Hl Hx]; subst. constructor.
  - apply IH; [|assumption]. intros a b Ha Hb. apply HRS; now right.
  - rewrite Forall_forall in *. intros z Hz.
    apply HRS; [now left | now right | now apply Hx].
Qed.

Lemma StronglySorted_map {A B} (f : A -> B) (R : B -> B -> Prop) (l : list A) :
  StronglySorted R (map f l) ->
  StronglySorted (fun a b => R (f a) (f b)) l.
Proof.
  induction l as [|x l IH]; simpl; intros H; [constructor|].
  inversion H as [|? ? Hl Hx]; subst. constructor; [now apply IH|].
  rewrite Forall_forall in *. intros z Hz. apply Hx. now apply in_map.
Qed.

Lemma StronglySorted_filter {A} (R : A -> A -> Prop) (f : A -> bool) (l : list A) :
  StronglySorted R l -> StronglySorted R (filter f l).
Proof.
  induction 1 as [|x l Hl IH Hx]; simpl; [constructor|].
  destruct (f x); [|assumption]. constructor; [assumption|].
  rewrite Forall_forall in *. intros z Hz.
  apply filter_In in Hz as [Hz _]. now apply Hx.
Qed.

(* ------------------------------------------------------------------ *)
(** ** [Counter] and [unique] *)
(* ------------------------------------------------------------------ *)

Section CounterFacts.
Variable K : Type.
Variable eqb : K -> K -> bool.

Lemma Counter_snoc (p : list K) (w : K) :
  Counter eqb (p ++ [w]) = incr eqb w (Counter eqb p).
Proof. unfold Counter. now rewrite fold_left_app. Qed.

Lemma sum_counts_incr (k : K) (d : list (K * nat)) :
  sum_counts (incr eqb k d) = S (sum_counts d).
Proof.
  induction d as [|[k' c] d IH]; simpl; [reflexivity|].
  destruct (eqb k' k); simpl; [|rewrite IH]; lia.
Qed.

Lemma sum_counts_Counter (l : list K) : sum_counts (Counter eqb l) = length l.
Proof.
  induction l as [|w p IH] using rev_ind; [reflexivity|].
  rewrite Counter_snoc, sum_counts_incr, IH, length_app. simpl. lia.
Qed.

Lemma keys_incr (k : K) (d : list (K * nat)) :
  map fst (incr eqb k d)
  = if existsb (fun k' => eqb k' k) (map fst d)
    then map fst d else map fst d ++ [k].
Proof.
  induction d as [|[k' c] d IH]; simpl; [reflexivity|].
  destruct (eqb k' k); simpl; [reflexivity|].
  rewrite IH. now destruct (existsb _ _).
Qed.

Hypothesis eqb_true : forall x y, eqb x y = true <-> x = y.

Lemma eqb_false (x y : K) : eqb x y = false <-> x <> y.
Proof.
  rewrite <- eqb_true. destruct (eqb x y); split; congruence.
Qed.

Lemma unique_In (x : K) (l : list K) : In x (unique eqb l) <-> In x l.
Proof.
  induction l as [|a l IH]; simpl; [tauto|].
  rewrite filter_In, IH, negb_true_iff, eqb_false.
  destruct (eqb a x) eqn:E.
  - apply eqb_true in E. tauto.
  - apply eqb_false in E. tauto.
Qed.

Lemma unique_NoDup (l : list K) : NoDup (unique eqb l).
Proof.
  induction l as [|a l IH]; simpl; constructor.
  - rewrite filter_In, negb_true_iff, eqb_false. tauto.
  - now apply NoDup_filter.
Qed.

Lemma existsb_eqb_In (w : K) (l : list K) :
  existsb (fun k' => eqb k' w) l = true <-> In w l.
Proof.
  rewrite existsb_exists. split.
  - intros (x & Hx & E). apply eqb_true in E. now subst.
  - intros H. exists w. split; [assumption | now apply eqb_true].
Qed.

Lemma unique_snoc (p : list K) (w : K) :
  unique eqb (p ++ [w])
  = if existsb (fun k' => eqb k' w) (unique eqb p)
    then unique eqb p else unique eqb p ++ [w].
Proof.
  induction p as [|x p IH]; simpl; [reflexivity|].
  rewrite IH. clear IH.
  destruct (eqb x w) eqn:Exw; simpl.
  - apply eqb_true in Exw. subst w.
    destruct (existsb _ (unique eqb p)); [reflexivity|].
    rewrite filter_app. simpl.
    replace (eqb x x) with true by (symmetry; now apply eqb_true).
    simpl. now rewrite app_nil_r.
  - assert (Hsame : existsb (fun k' => eqb k' w)
                      (filter (fun y => negb (eqb x y)) (unique eqb p))
                    = existsb (fun k' => eqb k' w) (unique eqb p)).
    { apply eq_true_iff_eq. rewrite !existsb_eqb_In, filter_In.
      rewrite negb_true_iff, Exw. tauto. }
    rewrite Hsame.
    destruct (existsb _ (unique eqb p)); [reflexivity|].
    rewrite filter_app. simpl. now rewrite Exw.
Qed.

Lemma keys_Counter (l : list K) : map fst (Counter eqb l) = unique eqb l.
Proof.
  induction l as [|w p IH] using rev_ind; [reflexivity|].
  now rewrite Counter_snoc, keys_incr, unique_snoc, IH.
Qed.

Variable dec : forall x y : K, {x = y} + {x <> y}.

Lemma get0_incr (k w : K) (d : list (K * nat)) :
  get0 eqb k (incr eqb w d)
  = if dec w k then S (get0 eqb k d) else get0 eqb k d.
Proof.
  induction d as [|[k' c] d IH]; simpl.
  - destruct (dec w k) as [->|N].
    + now replace (eqb k k) with true by (symmetry; now apply eqb_true).
    + apply eqb_false in N. now rewrite N.
  - destruct (eqb k' w) eqn:E; simpl.
    + apply eqb_true in E. subst k'.
      destruct (dec w k) as [->|N].
      * now replace (eqb k k) with true by (symmetry; now apply eqb_true).
      * apply eqb_false in N. now rewrite N.
    + destruct (eqb k' k) eqn:E'; [|exact IH].
      apply eqb_true in E'. subst k'. apply eqb_false in E.
      destruct (dec w k); congruence.
Qed.

Lemma get0_Counter (k : K) (l : list K) :
  get0 eqb k (Counter eqb l) = count_occ dec l k.
Proof.
  induction l as [|w p IH] using rev_ind; [reflexivity|].
  rewrite Counter_snoc, get0_incr, IH, count_occ_app. simpl.
  destruct (dec w k); lia.
Qed.

Lemma get0_In (k : K) (c : nat) (d : list (K * nat)) :
  NoDup (map fst d) -> In (k, c) d -> get0 eqb k d = c.
Proof.
  induction d as [|[k' c'] d IH]; simpl; [tauto|].
  intros Hnd [E|Hin]; inversion Hnd as [|? ? Hk' Hd]; subst.
  - inversion E; subst.
    now replace (eqb k k) with true by (symmetry; now apply eqb_true).
  - destruct (eqb k' k) eqn:E; [|now apply IH].
    apply eqb_true in E. subst k'.
    exfalso. apply Hk'. change k with (fst (k, c)). now apply in_map.
Qed.

(** Each entry of a [Counter] holds the number of occurrences of its
    key. *)
Lemma Counter_counts (k : K) (c : nat) (l : list K) :
  In (k, c) (Counter eqb l) -> c = count_occ dec l k.
Proof.
  intros H. rewrite <- get0_Counter. symmetry. apply get0_In; [|assumption].
  rewrite keys_Counter. apply unique_NoDup.
Qed.

Lemma Counter_length (l : list K) :
  length (Counter eqb l) <= length (nodup dec l).
Proof.
  rewrite <- (length_map fst), keys_Counter.
  apply NoDup_incl_length; [apply unique_NoDup|].
  intros x Hx. apply nodup_In. exact (proj1 (unique_In x l) Hx).
Qed.

End CounterFacts.

(* ------------------------------------------------------------------ *)
(** ** Frequency tables *)
(* ------------------------------------------------------------------ *)

Lemma unique_sorted_by_index (l : list string) :
  StronglySorted (fun a b => index a l < index b l) (unique String.eqb l).
Proof.
  induction l as [|x l IH]; simpl; constructor.
  - apply StronglySorted_weaken
      with (R := fun a b => index a l < index b l).
    + intros a b Ha Hb Hab.
      apply filter_In in Ha as [_ Ha]. apply filter_In in Hb as [_ Hb].
      apply negb_true_iff in Ha, Hb. rewrite Ha, Hb. lia.
    + now apply StronglySorted_filter.
  - apply Forall_forall. intros z Hz.
    apply filter_In in Hz as [_ Hz]. apply negb_true_iff in Hz.
    rewrite String.eqb_refl, Hz. lia.
Qed.

Lemma Counter_in_order_of_first_appearance (tokens : list string) :
  StronglySorted (fun a b => index (fst a) tokens < index (fst b) tokens)
                 (Counter String.eqb tokens).
Proof.
  apply StronglySorted_map with (R := fun a b => index a tokens < index b tokens).
  rewrite (keys_Counter _ String.eqb_eq). apply unique_sorted_by_index.
Qed.

Lemma count_desc_trans {K} (a b c : K * nat) :
  count_desc a b = true -> count_desc b c = true -> count_desc a c = true.
Proof. unfold count_desc. rewrite !Nat.ltb_lt. lia. Qed.

Lemma count_desc_cotrans {K} (a b c : K * nat) :
  count_desc a c = true -> count_desc a b = true \/ count_desc b c = true.
Proof. unfold count_desc. rewrite !Nat.ltb_lt. lia. Qed.

Lemma top_words_are_top_20 (words : list string) :
  App.top_words words = top_n words 20 /\ Batch.top_words words = top_n words 20.
Proof. split; [destruct words|]; reflexivity. Qed.

(** C7: [top_n tokens n] is sorted by descending count, entries of
    equal count in order of the first appearance of their token; every
    count is the number of occurrences of its token; the table has at
    most [n] entries and at most as many as there are distinct tokens.
    This holds for every [n], so for every [n > 0], and for the [n = 20]
    of both scripts. *)
Theorem top_n_sorted_and_bounded (tokens : list string) (n : nat) :
  StronglySorted (frequency_order tokens) (top_n tokens n)
  /\ (forall w c, In (w, c) (top_n tokens n) ->
                  c = count_occ string_dec tokens w /\ 0 < c)
  /\ length (top_n tokens n) <= n
  /\ length (top_n tokens n) <= length (nodup string_dec tokens)
  /\ App.top_words tokens = top_n tokens 20
  /\ Batch.top_words tokens = top_n tokens 20.
Proof.
  unfold top_n, most_common. repeat split.
  - apply StronglySorted_firstn.
    apply StronglySorted_weaken
      with (R := stable_order count_desc
                   (fun a b => index (fst a) tokens < index (fst b) tokens)).
    + intros a b _ _ [H | [H1 H2]]; unfold frequency_order, count_desc in *.
      * left. now apply Nat.ltb_lt.
      * apply Nat.ltb_ge in H1.
        destruct (Nat.eq_dec (snd a) (snd b)); [right; now split | left; lia].
    + apply sorted_stable.
      * apply count_desc_trans.
      * apply count_desc_cotrans.
      * apply Counter_in_order_of_first_appearance.
  - apply (Counter_counts _ String.eqb_eq string_dec).
    apply (sorted_In count_desc). eapply subseq_In; [apply subseq_firstn|eassumption].
  - assert (Hc : c = count_occ string_dec tokens w).
    { apply (Counter_counts _ String.eqb_eq string_dec).
      apply (sorted_In count_desc).
      eapply subseq_In; [apply subseq_firstn|eassumption]. }
    assert (Hw : In w tokens).
    { apply (unique_In _ String.eqb_eq).
      rewrite <- (keys_Counter _ String.eqb_eq).
      change w with (fst (w, c)). apply in_map.
      apply (sorted_In count_desc).
      eapply subseq_In; [apply subseq_firstn|eassumption]. }
    rewrite Hc. now apply count_occ_In.
  - apply firstn_le_length.
  - etransitivity; [apply subseq_length, subseq_firstn|].
    rewrite sorted_length. apply Counter_length, String.eqb_eq.
  - apply top_words_are_top_20.
Qed.

Example analyze_word_frequency_example :
  Batch.analyze_word_frequency Sample.store
  = [("novel", 1); ("virus", 1); ("study", 1); ("vaccine", 1); ("trial", 1)].
Proof. reflexivity. Qed.

Example top_n_example :
  top_n ["virus"; "study"; "covid"; "study"; "virus"; "cats"] 3
  = [("virus", 2); ("study", 2); ("covid", 1)].
Proof. reflexivity. Qed.

(* ------------------------------------------------------------------ *)
(** ** Counts by year *)
(* ------------------------------------------------------------------ *)

Lemma sum_counts_perm {K} (c1 c2 : list (K * nat)) :
  Permutation c1 c2 -> sum_counts c1 = sum_counts c2.
Proof.
  induction 1; simpl; lia.
Qed.

(** The groups of [value_counts().sort_index()] count the rows whose
    value is not missing. *)
Lemma sum_value_counts (years : list (option Z)) :
  sum_counts (sort_index Z.ltb (value_counts Z.eqb years))
  = length (dropna years).
Proof.
  unfold sort_index, value_counts.
  rewrite (sum_counts_perm (sorted_perm _ _)).
  rewrite (sum_counts_perm (sorted_perm _ _)).
  apply sum_counts_Counter.
Qed.

Lemma dropna_years_length (view : list Row) :
  Forall (fun r => has_year r = true) view ->
  length (dropna (map year view)) = length view.
Proof.
  induction 1 as [|r view Hr _ IH]; simpl; [reflexivity|].
  unfold has_year in Hr. destruct (year r); [simpl; now rewrite IH | discriminate].
Qed.

Lemma isin_none_of_present {K} (eqb : K -> K -> bool) (values : list K) :
  isin eqb None (map Some values) = false.
Proof.
  unfold isin. induction values as [|v values IH]; simpl; [reflexivity | exact IH].
Qed.

Lemma mask_has_year (c : App.FilterCriteria) (r : Row) :
  App.mask c r = true -> has_year r = true.
Proof.
  unfold App.mask, has_year. destruct (year r); [reflexivity|].
  now rewrite isin_none_of_present.
Qed.

Lemma filtered_df_has_year (c : App.FilterCriteria) (df : list Row) :
  Forall (fun r => has_year r = true) (App.filtered_df c df).
Proof.
  apply Forall_forall. intros r Hr.
  apply filter_In in Hr as [_ Hr]. now apply mask_has_year in Hr.
Qed.

Lemma clean_rows_has_year `{DateParser} (raw : list RawRow) :
  Forall (fun r => has_year r = true) (Batch.clean_rows raw).
Proof.
  apply Forall_forall. intros r Hr.
  apply filter_In in Hr as [Hr Hc].
  apply in_map_iff in Hr as (x & <- & _).
  unfold Batch.has_critical_data, has_year in *. simpl in *.
  destruct (raw_title x); [|discriminate].
  now destruct (to_datetime_coerce (raw_publish_time x)).
Qed.

(** C5: the year counts of a filtered view add up to the number of rows
    of the view, in the application for every selection and every
    store, and in the batch script for every cleaned data set. *)
Theorem year_counts_sum_to_length :
  (forall (c : App.FilterCriteria) (df : list Row),
      sum_counts (App.year_counts (App.filtered_df c df))
      = length (App.filtered_df c df))
  /\ (forall (parser : DateParser) (raw : list RawRow),
      sum_counts (Batch.analyze_publications_by_year (Batch.clean_rows raw))
      = length (Batch.clean_rows raw)).
Proof.
  split; intros.
  - unfold App.year_counts. rewrite sum_value_counts.
    apply dropna_years_length, filtered_df_has_year.
  - unfold Batch.analyze_publications_by_year. rewrite sum_value_counts.
    apply dropna_years_length, clean_rows_has_year.
Qed.

Example year_counts_example :
  App.year_counts (App.filtered_df (App.default_criteria Sample.store) Sample.store)
  = [(2020%Z, 1); (2021%Z, 1)]
  /\ App.year_counts Sample.store = [(2020%Z, 1); (2021%Z, 1)].
Proof. split; reflexivity. Qed.

(* ------------------------------------------------------------------ *)
(** ** The filter with everything selected *)
(* ------------------------------------------------------------------ *)

Lemma isin_unique (x : option string) (col : list (option string)) :
  In x col -> isin String.eqb x (unique (opt_eqb String.eqb) col) = true.
Proof.
  intros H. unfold isin. apply existsb_exists. exists x. split.
  - now apply (unique_In _ opt_eqb_string_true).
  - now apply opt_eqb_string_true.
Qed.

Lemma isin_years (y : Z) (df : list Row) :
  In (Some y) (map year df) ->
  isin Z.eqb (Some y) (map Some (App.years df)) = true.
Proof.
  intros H. unfold isin. apply existsb_exists. exists (Some y). split.
  - apply in_map. unfold App.years. apply sorted_In.
    apply (unique_In _ Z.eqb_eq).
    clear -H. induction (map year df) as [|[z|] col IH]; simpl in *.
    + contradiction.
    + destruct H as [E|H]; [left; congruence | right; auto].
    + destruct H as [E|H]; [discriminate | auto].
  - simpl. apply Z.eqb_refl.
Qed.

Lemma default_mask (df : list Row) (r : Row) :
  In r df -> App.mask (App.default_criteria df) r = has_year r.
Proof.
  intros Hr. unfold App.mask, has_year, App.default_criteria.
  cbn [App.selected_years App.selected_journals App.selected_sources].
  unfold App.journals, App.sources.
  rewrite (isin_unique (journal r)) by now apply in_map.
  rewrite (isin_unique (source r)) by now apply in_map.
  rewrite !andb_true_r.
  destruct (year r) as [y|] eqn:Hy.
  - apply isin_years. rewrite <- Hy. now apply in_map.
  - apply isin_none_of_present.
Qed.

(** C1, amended: with everything selected the filter returns, in the
    order of the store, the rows whose year is present; the rows whose
    year is missing are left out, whatever their journal and source
    (missing ones included). *)
Theorem default_filter_keeps_rows_with_year (df : list Row) :
  App.filtered_df (App.default_criteria df) df = filter has_year df.
Proof.
  unfold App.filtered_df. apply filter_ext_in. intros r Hr.
  now apply default_mask.
Qed.

(** C1 as stated fails on a store that holds a row whose date did not
    parse: that row is not in the view of the default selection. *)
Lemma default_filter_drops_missing_year :
  App.filtered_df (App.default_criteria Sample.store) Sample.store
  <> Sample.store.
Proof. vm_compute. discriminate. Qed.

(** With no missing year the default selection returns the store. *)
Lemma default_filter_full_store (df : list Row) :
  Forall (fun r => has_year r = true) df ->
  App.filtered_df (App.default_criteria df) df = df.
Proof.
  intros H. unfold App.filtered_df.
  rewrite (filter_ext_in _ _ _ (default_mask df)).
  induction H as [|r df Hr _ IH]; simpl; [reflexivity|].
  now rewrite Hr, IH.
Qed.

(* ------------------------------------------------------------------ *)
(** ** Loading *)
(* ------------------------------------------------------------------ *)

Lemma columns_read_present (df : RawFrame) :
  incl columns_read (columns df) <->
  in_set "publish_time" (columns df) = true
  /\ in_set "abstract" (columns df) = true
  /\ in_set "title" (columns df) = true.
Proof.
  rewrite !in_set_In. unfold columns_read, incl. simpl. split.
  - intros H. repeat split; apply H; tauto.
  - intros (H1 & H2 & H3) c [<-|[<-|[<-|[]]]]; assumption.
Qed.

Lemma read_csv_table (df : RawFrame) :
  columns df <> [] -> read_csv (Some (Table df)) = Ok df.
Proof. simpl. destruct (columns df); [congruence | reflexivity]. Qed.

Lemma read_csv_no_header (df : RawFrame) :
  columns df = [] -> read_csv (Some (Table df)) = Raise EmptyDataError.
Proof. simpl. now intros ->. Qed.

Lemma in_set_nonempty (c : string) (cols : list string) :
  in_set c cols = true -> cols <> [].
Proof. destruct cols; [discriminate | discriminate]. Qed.

Lemma columns_read_nonempty (df : RawFrame) :
  incl columns_read (columns df) -> columns df <> [].
Proof.
  intros H. apply columns_read_present in H as (H & _).
  now apply in_set_nonempty in H.
Qed.

Lemma read_csv_no_header_load `{DateParser} (df : RawFrame) :
  columns df = [] -> App.load_data (Some (Table df)) = Raise EmptyDataError.
Proof.
  intros E. unfold App.load_data. now rewrite (read_csv_no_header _ E).
Qed.

(** [load_data] on a file that holds a table with a header. *)
Lemma app_load_data_table `{DateParser} (df : RawFrame) :
  columns df <> [] ->
  App.load_data (Some (Table df))
  = if negb (in_set "publish_time" (columns df))
    then Raise (KeyError "publish_time")
    else if negb (in_set "abstract" (columns df))
         then Raise (KeyError "abstract")
         else if negb (in_set "title" (columns df))
              then Raise (KeyError "title")
              else Ok (Some (map App.derive (rows df))).
Proof.
  intros Hne. unfold App.load_data. rewrite (read_csv_table _ Hne).
  unfold getitem. cbn [bind].
  destruct (in_set "publish_time" (columns df)); [|reflexivity].
  destruct (in_set "abstract" (columns df)); [|reflexivity].
  destruct (in_set "title" (columns df)); reflexivity.
Qed.

(** [clean_data] on a file that holds a table with a header. *)
Lemma batch_clean_data_table `{DateParser} (df : RawFrame) :
  columns df <> [] ->
  Batch.clean_data (Some (Table df))
  = if negb (in_set "abstract" (columns df))
    then Raise (KeyError "abstract")
    else if negb (in_set "publish_time" (columns df))
         then Raise (KeyError "publish_time")
         else if negb (in_set "title" (columns df))
              then Raise (KeyError "title")
              else Ok (Batch.clean_rows (rows df)).
Proof.
  intros Hne. unfold Batch.clean_data. rewrite (read_csv_table _ Hne).
  unfold getitem. cbn [bind].
  destruct (in_set "abstract" (columns df)); [|reflexivity].
  destruct (in_set "publish_time" (columns df)); [|reflexivity].
  destruct (in_set "title" (columns df)); reflexivity.
Qed.

Lemma app_load_data_ok `{DateParser} (df : RawFrame) :
  incl columns_read (columns df) ->
  App.load_data (Some (Table df)) = Ok (Some (map App.derive (rows df))).
Proof.
  intros H0. rewrite (app_load_data_table _ (columns_read_nonempty _ H0)).
  apply columns_read_present in H0 as (H1 & H2 & H3). now rewrite H1, H2, H3.
Qed.

Lemma batch_clean_data_ok `{DateParser} (df : RawFrame) :
  incl columns_read (columns df) ->
  Batch.clean_data (Some (Table df)) = Ok (Batch.clean_rows (rows df)).
Proof.
  intros H0. rewrite (batch_clean_data_table _ (columns_read_nonempty _ H0)).
  apply columns_read_present in H0 as (H1 & H2 & H3). now rewrite H1, H2, H3.
Qed.

Lemma filter_length_lt_In {A} (f : A -> bool) (x : A) (l : list A) :
  In x l -> f x = false -> length (filter f l) < length l.
Proof.
  induction l as [|a l IH]; simpl; [tauto|].
  intros [->|Hin] Hf.
  - rewrite Hf. pose proof (subseq_length (subseq_filter f l)). lia.
  - specialize (IH Hin Hf). destruct (f a); simpl; lia.
Qed.

(** C2, amended: a line whose [publish_time] does not parse never
    aborts a load.  In the application the line stays in the store, at
    its place, with missing [publish_time] and [year] and its other
    cells unchanged.  In the batch script [clean_data] returns too, but
    without that line: it keeps only rows with a title and a parsed
    date. *)
Theorem unparsed_date_is_coerced
        (parser : DateParser) (df : RawFrame) (i : nat) (line : RawRow) :
  incl columns_read (columns df) ->
  nth_error (rows df) i = Some line ->
  to_datetime_coerce (raw_publish_time line) = None ->
  (exists store r,
      App.load_data (Some (Table df)) = Ok (Some store)
      /\ length store = length (rows df)
      /\ nth_error store i = Some r
      /\ publish_time r = None /\ year r = None
      /\ title r = raw_title line /\ abstract r = raw_abstract line
      /\ authors r = raw_authors line /\ journal r = raw_journal line
      /\ source r = raw_source line)
  /\ (exists cleaned,
      Batch.clean_data (Some (Table df)) = Ok cleaned
      /\ length cleaned < length (rows df)
      /\ Forall (fun r => publish_time r <> None /\ title r <> None) cleaned).
Proof.
  intros Hcols Hi Hparse. split.
  - exists (map App.derive (rows df)), (App.derive line).
    split; [now apply app_load_data_ok|].
    split; [apply length_map|].
    split; [now apply map_nth_error|].
    unfold App.derive; simpl. rewrite Hparse. repeat split.
  - exists (Batch.clean_rows (rows df)).
    split; [now apply batch_clean_data_ok|]. split.
    + unfold Batch.clean_rows.
      rewrite <- (length_map Batch.derive (rows df)).
      apply filter_length_lt_In with (x := Batch.derive line).
      * apply in_map. eapply nth_error_In. eassumption.
      * unfold Batch.has_critical_data, Batch.derive; simpl. rewrite Hparse.
        now destruct (raw_title line).
    + apply Forall_forall. intros r Hr.
      apply filter_In in Hr as [_ Hr]. unfold Batch.has_critical_data in Hr.
      destruct (title r), (publish_time r); try discriminate.
      split; discriminate.
Qed.

Lemma unparsed_date_is_coerced_witness :
  nth_error (rows Sample.frame) 1
  = Some (Sample.row (Some "Vaccine trial") None (Some "A") (Some "PMC")
                     (Some "spring 2020"))
  /\ (exists store r,
      @App.load_data Sample.iso_parser (Some (Table Sample.frame)) = Ok (Some store)
      /\ length store = 3
      /\ nth_error store 1 = Some r
      /\ publish_time r = None /\ year r = None
      /\ title r = Some "Vaccine trial" /\ abstract r = None
      /\ authors r = Some "Doe J" /\ journal r = Some "A"
      /\ source r = Some "PMC")
  /\ (exists cleaned,
      @Batch.clean_data Sample.iso_parser (Some (Table Sample.frame)) = Ok cleaned
      /\ length cleaned < 3
      /\ Forall (fun r => publish_time r <> None /\ title r <> None) cleaned).
Proof.
  split; [reflexivity|].
  apply (unparsed_date_is_coerced Sample.iso_parser Sample.frame 1
           (line := Sample.row (Some "Vaccine trial") None (Some "A")
                               (Some "PMC") (Some "spring 2020"))).
  - intros c Hc. vm_compute in *. tauto.
  - reflexivity.
  - reflexivity.
Defined.

(** C2 as stated fails in the batch script: the line dated
    "spring 2020" is read, its date is coerced to a missing value, and
    [clean_data] then removes the line; of the three lines only the
    first is kept (the third has no title). *)
Lemma clean_data_removes_unparsed_date :
  map raw_publish_time (rows Sample.frame)
  = [Some "2020-03-15"; Some "spring 2020"; Some "2021-01-02"]
  /\ @to_datetime Sample.iso_parser "spring 2020" = None
  /\ exists cleaned,
      @Batch.clean_data Sample.iso_parser (Some (Table Sample.frame)) = Ok cleaned
      /\ map title cleaned = [Some "Novel Virus Study"].
Proof.
  split; [reflexivity|]. split; [reflexivity|].
  eexists. split; reflexivity.
Qed.

Lemma first_missing_cases (x1 x2 x3 c : string) (cols : list string) :
  first_missing [x1; x2; x3] cols c ->
  (c = x1 /\ in_set x1 cols = false)
  \/ (c = x2 /\ in_set x1 cols = true /\ in_set x2 cols = false)
  \/ (c = x3 /\ in_set x1 cols = true /\ in_set x2 cols = true
      /\ in_set x3 cols = false).
Proof.
  intros (before & after & E & Hin & Hout).
  assert (Hno : in_set c cols = false).
  { destruct (in_set c cols) eqn:Ec; [|reflexivity].
    apply in_set_In in Ec. contradiction. }
  assert (Hyes : forall x, In x before -> in_set x cols = true).
  { intros x Hx. apply in_set_In. now apply Hin. }
  destruct before as [|b1 [|b2 [|b3 [|b4 before]]]]; simpl in E;
    inversion E; subst; try (destruct before; discriminate).
  - left. now split.
  - right; left. repeat split; [apply Hyes; simpl; tauto | assumption].
  - right; right. repeat split; try assumption; apply Hyes; simpl; tauto.
Qed.

Lemma first_missing_exists (x1 x2 x3 : string) (cols : list string) :
  ~ incl [x1; x2; x3] cols -> exists c, first_missing [x1; x2; x3] cols c.
Proof.
  intros Hmiss.
  destruct (in_set x1 cols) eqn:H1.
  2:{ exists x1, [], [x2; x3]. split; [reflexivity|]. split; [intros ? []|].
      rewrite <- in_set_In. congruence. }
  destruct (in_set x2 cols) eqn:H2.
  2:{ exists x2, [x1], [x3]. split; [reflexivity|]. split.
      - intros x [<-|[]]. now apply in_set_In.
      - rewrite <- in_set_In. congruence. }
  destruct (in_set x3 cols) eqn:H3.
  2:{ exists x3, [x1; x2], []. split; [reflexivity|]. split.
      - intros x [<-|[<-|[]]]; now apply in_set_In.
      - rewrite <- in_set_In. congruence. }
  exfalso. apply Hmiss. intros x [<-|[<-|[<-|[]]]]; now apply in_set_In.
Qed.

(** C4, amended: [load_data] turns the missing file, and nothing else,
    into the handled failure.  A file that cannot be tokenized or
    decoded, and a file of no byte, end in the reader's own error,
    which nothing catches.  A table that lacks one of the columns the
    load reads ends in an uncaught [KeyError] for the first missing
    one, in the order [publish_time], [abstract], [title].  A table
    with these three columns loads, one row per line, whether or not
    [authors], [journal] and [source] are there; with all the required
    columns the rows are the lines with their derived columns. *)
Theorem load_data_failures (parser : DateParser) :
  App.load_data None = Ok None
  /\ (forall fs, App.load_data fs = Ok None -> fs = None)
  /\ App.load_data (Some (Damaged BadStructure)) = Raise ParserError
  /\ App.load_data (Some (Damaged BadEncoding)) = Raise UnicodeDecodeError
  /\ (forall df, columns df = [] ->
        App.load_data (Some (Table df)) = Raise EmptyDataError)
  /\ (forall df c, columns df <> [] ->
        first_missing columns_read (columns df) c ->
        App.load_data (Some (Table df)) = Raise (KeyError c))
  /\ (forall df, columns df <> [] -> ~ incl columns_read (columns df) ->
        exists c, first_missing columns_read (columns df) c)
  /\ (forall df, incl columns_read (columns df) ->
        exists store, App.load_data (Some (Table df)) = Ok (Some store)
                      /\ length store = length (rows df))
  /\ (forall df, incl required_columns (columns df) ->
        App.load_data (Some (Table df)) = Ok (Some (map App.derive (rows df)))).
Proof.
  split; [reflexivity|]. split; [|split; [reflexivity|split; [reflexivity|]]].
  - intros [[[|]|df]|]; try discriminate; [|reflexivity].
    destruct (columns df) eqn:Ec.
    + now rewrite (read_csv_no_header_load df Ec).
    + assert (Hne : columns df <> []) by congruence.
      rewrite (app_load_data_table _ Hne).
      destruct (in_set "publish_time" (columns df)); [|discriminate].
      destruct (in_set "abstract" (columns df)); [|discriminate].
      destruct (in_set "title" (columns df)); discriminate.
  - split; [intros df Ec; apply (read_csv_no_header_load df Ec)|].
    split; [|split; [|split]].
    + intros df c Hne Hc. rewrite (app_load_data_table _ Hne).
      apply first_missing_cases in Hc
        as [[-> H1]|[(-> & H1 & H2)|(-> & H1 & H2 & H3)]].
      * now rewrite H1.
      * now rewrite H1, H2.
      * now rewrite H1, H2, H3.
    + intros df _ Hmiss. now apply first_missing_exists.
    + intros df Hall. exists (map App.derive (rows df)).
      split; [now apply app_load_data_ok | apply length_map].
    + intros df Hall. apply app_load_data_ok.
      intros c Hc. apply Hall. unfold columns_read, required_columns in *.
      simpl in *. tauto.
Qed.

(** C4 as stated fails on a file that lacks the [publish_time] column:
    the load ends in an uncaught [KeyError], not in the handled
    failure; and on the file of no byte, which lacks every column, it
    ends in an uncaught [EmptyDataError]. *)
Lemma missing_column_is_not_handled :
  In "publish_time" required_columns
  /\ ~ In "publish_time" (columns Sample.frame_without_publish_time)
  /\ @App.load_data Sample.iso_parser
       (Some (Table Sample.frame_without_publish_time))
     = Raise (KeyError "publish_time")
  /\ @App.load_data Sample.iso_parser (Some (Table Sample.empty_file))
     = Raise EmptyDataError.
Proof.
  assert (Hne : forall c cols, in_set c cols = false -> ~ In c cols).
  { intros c cols E H. apply in_set_In in H. congruence. }
  split; [simpl; tauto|]. split; [now apply Hne|]. split; reflexivity.
Qed.

(* ------------------------------------------------------------------ *)
(** ** Summaries of an empty view *)
(* ------------------------------------------------------------------ *)

(** The metrics of the application on an empty view: two zero counts
    and three missing values. *)
Lemma app_summary_empty :
  App.summary [] = App.mkSummary 0 0 None None None.
Proof. reflexivity. Qed.

Lemma app_aggregates_empty :
  App.year_counts [] = [] /\ App.title_words [] = [] /\ App.top_words [] = [].
Proof. repeat split. Qed.

(** C3: on the empty view the metrics of the application are returned,
    [year_min], [year_max] and [avg_abstract_words] missing, while
    [generate_summary_report] of the batch script raises [IndexError]
    at the first [.mode().iloc[0]]. *)
Theorem empty_view_summaries :
  App.summary [] = App.mkSummary 0 0 None None None
  /\ Batch.generate_summary_report [] = Raise IndexError.
Proof. split; reflexivity. Qed.

Example generate_summary_report_example :
  exists report,
    Batch.generate_summary_report (@Batch.clean_rows Sample.iso_parser Sample.lines)
    = Ok report
    /\ Batch.total report = 1
    /\ Batch.first_year report = Some 2020%Z
    /\ Batch.most_active_year report = 2020%Z
    /\ Batch.most_common_journal report = "A".
Proof. eexists. repeat split. Qed.

(* ------------------------------------------------------------------ *)
(** ** The two tokenizers *)
(* ------------------------------------------------------------------ *)

(** C9: the two pipelines differ on a title that holds a pronoun of
    three letters or more: the application keeps "you", the batch
    script drops it. *)
Theorem tokenizers_differ_on_pronoun :
  App.title_words [Some "Are you safe"] = ["you"; "safe"]
  /\ Batch.title_words [Some "Are you safe"] = ["safe"].
Proof. split; reflexivity. Qed.

(** Where no token is such a pronoun the two pipelines agree. *)
Lemma tokenizers_agree_without_pronouns (text : string) :
  Forall (fun w => ~ In w pronouns) (App.tokenize text) ->
  Batch.tokenize text = App.tokenize text.
Proof.
  intros H. rewrite batch_tokenize_refines_app.
  generalize dependent (App.tokenize text). intros ws H.
  induction H as [|w ws Hw _ IH]; [reflexivity|].
  cbn [filter]. rewrite IH. rewrite <- in_set_In in Hw.
  now destruct (in_set w pronouns).
Qed.

(* ------------------------------------------------------------------ *)
(** ** Search *)
(* ------------------------------------------------------------------ *)

Lemma boolean_index_mask_or {A} (f g : A -> bool) (l : list A) :
  boolean_index (mask_or (map f l) (map g l)) l
  = filter (fun x => f x || g x) l.
Proof.
  induction l as [|x l IH]; simpl; [reflexivity|].
  now rewrite IH.
Qed.

(** The four outcomes of a search with a term that is not empty, in
    the order the program meets them. *)
Lemma search_outcome `{Regex} (search_term : string) (df view : list Row) :
  search_term <> "" ->
  App.search search_term df view
  = if negb (is_object_dtype (map title df)) then Raise AttributeError
    else match re_compile search_term with
         | None => Raise ReError
         | Some rx =>
             if negb (is_object_dtype (map abstract df))
             then Raise AttributeError
             else Ok (filter (matches rx) view)
         end.
Proof.
  intros Hterm. apply String.eqb_neq in Hterm.
  unfold App.search, str_contains, str_accessor. rewrite Hterm.
  destruct (is_object_dtype (map title df)); [|reflexivity]. cbn [bind negb].
  destruct (re_compile search_term) as [rx|]; [|reflexivity]. cbn [bind].
  destruct (is_object_dtype (map abstract df)); [|reflexivity]. cbn [bind negb].
  now rewrite !map_map, boolean_index_mask_or.
Qed.

(** C10: on a store whose only paper has neither title nor abstract,
    the paper passes the default filter and every search with a term
    that is not empty raises [AttributeError]: the missing texts are an
    error, not a non-match.  In a store where other papers have
    texts, such a paper is left out of the searched view without
    error. *)
Theorem search_raises_without_any_text :
  map title Sample.untitled_store = [None]
  /\ map abstract Sample.untitled_store = [None]
  /\ App.filtered_df (App.default_criteria Sample.untitled_store)
                     Sample.untitled_store
     = Sample.untitled_store
  /\ (forall (engine : Regex) (c : ascii) (rest : string),
        App.search (String c rest) Sample.untitled_store Sample.untitled_store
        = Raise AttributeError)
  /\ map title Sample.store
     = [Some "Novel Virus Study"; Some "Vaccine trial"; None]
  /\ map abstract Sample.store = [Some "We study the virus"; None; None]
  /\ @App.search Sample.plain_regex "virus" Sample.store Sample.store
     = Ok (firstn 1 Sample.store).
Proof.
  repeat split.
Qed.

Example search_example :
  @App.search Sample.plain_regex "VIRUS" Sample.store Sample.store
  = Ok (firstn 1 Sample.store)
  /\ @App.search Sample.plain_regex "(" Sample.store Sample.store = Raise ReError
  /\ @App.search Sample.plain_regex "" Sample.store Sample.store
     = Ok Sample.store.
Proof. repeat split. Qed.

(* ================================================================== *)
(** * Further properties of the two scripts *)
(* ================================================================== *)

(* ------------------------------------------------------------------ *)
(** ** Words and titles *)
(* ------------------------------------------------------------------ *)

Lemma space_is_not_word (c : ascii) : is_space c = true -> is_word_char c = false.
Proof.
  destruct c as [[] [] [] [] [] [] [] []]; vm_compute; congruence.
Qed.

Lemma lower_char_not_upper (c : ascii) : is_upper (lower_char c) = false.
Proof.
  destruct c as [[] [] [] [] [] [] [] []]; vm_compute; reflexivity.
Qed.

Lemma lower_char_fixed (c : ascii) : is_upper c = false -> lower_char c = c.
Proof. unfold lower_char. now intros ->. Qed.

Lemma lower_app (a b : string) : lower (a ++ b) = (lower a ++ lower b)%string.
Proof.
  induction a as [|c a IH]; simpl; [reflexivity | now rewrite IH].
Qed.

Lemma scan_words_separator (run a b : string) (c : ascii) :
  is_word_char c = false ->
  scan_words run (a ++ String c b) = scan_words run a ++ scan_words "" b.
Proof.
  intros Hc. revert run. induction a as [|x a IH]; intros run; simpl.
  - now rewrite Hc.
  - destruct (is_word_char x).
    + apply IH.
    + now rewrite IH, app_assoc.
Qed.

Lemma findall_words_join (parts : list string) :
  findall_words (join " " parts) = flat_map findall_words parts.
Proof.
  induction parts as [|p [|q rest] IH].
  - reflexivity.
  - simpl. now rewrite app_nil_r.
  - change (join " " (p :: q :: rest))
      with (p ++ String " " (join " " (q :: rest)))%string.
    unfold findall_words at 1.
    rewrite scan_words_separator by reflexivity.
    change (scan_words "" (join " " (q :: rest)))
      with (findall_words (join " " (q :: rest))).
    now rewrite IH.
Qed.

Lemma lower_join (parts : list string) :
  lower (join " " parts) = join " " (map lower parts).
Proof.
  induction parts as [|p [|q rest] IH]; try reflexivity.
  change (join " " (p :: q :: rest))
    with (p ++ String " " (join " " (q :: rest)))%string.
  rewrite lower_app. cbn [lower]. rewrite IH. reflexivity.
Qed.

Lemma filter_flat_map {A B} (f : B -> bool) (g : A -> list B) (l : list A) :
  filter f (flat_map g l) = flat_map (fun x => filter f (g x)) l.
Proof.
  induction l as [|x l IH]; simpl; [reflexivity|].
  now rewrite filter_app, IH.
Qed.

Lemma keep_words_of_joined (stop : list string) (parts : list string) :
  filter (keep_word stop) (findall_words (lower (join " " parts)))
  = flat_map (fun p => filter (keep_word stop) (findall_words (lower p))) parts.
Proof.
  rewrite lower_join, findall_words_join, filter_flat_map.
  now rewrite flat_map_concat_map, map_map, <- flat_map_concat_map.
Qed.

(** X1: the words of the joined titles are the words of each present
    title, one title after the other: joining with a space never glues
    two titles into one word, and a missing title adds nothing. *)
Theorem title_words_by_title (titles : list (option string)) :
  App.title_words titles = flat_map App.tokenize (dropna titles)
  /\ Batch.title_words titles = flat_map Batch.tokenize (dropna titles).
Proof.
  split; apply keep_words_of_joined.
Qed.

Lemma string_app_nil_r (s : string) : (s ++ "")%string = s.
Proof. induction s as [|c s IH]; simpl; [reflexivity | now rewrite IH]. Qed.

Lemma string_app_assoc (a b c : string) :
  ((a ++ b) ++ c)%string = (a ++ (b ++ c))%string.
Proof. induction a as [|x a IH]; simpl; [reflexivity | now rewrite IH]. Qed.

Lemma all_chars_app (p : ascii -> bool) (a b : string) :
  all_chars p (a ++ b) = all_chars p a && all_chars p b.
Proof.
  induction a as [|x a IH]; simpl; [reflexivity|].
  now rewrite IH, andb_assoc.
Qed.

Lemma flush_chars (p : ascii -> bool) (run : string) :
  all_chars p run = true ->
  Forall (fun w => w <> "" /\ all_chars p w = true) (flush run).
Proof.
  intros H. destruct run; simpl; constructor; [|constructor].
  split; [discriminate | exact H].
Qed.

(** The words [scan_words] emits are not empty and are made of the
    word characters it read. *)
Lemma scan_words_chars (p : ascii -> bool) (text run : string) :
  all_chars (fun c => implb (is_word_char c) (p c)) text = true ->
  all_chars p run = true ->
  Forall (fun w => w <> "" /\ all_chars p w = true) (scan_words run text).
Proof.
  revert run. induction text as [|c text IH]; simpl; intros run Ht Hr.
  - now apply flush_chars.
  - apply andb_true_iff in Ht as [Hc Ht].
    destruct (is_word_char c) eqn:Hw.
    + apply IH; [assumption|].
      rewrite all_chars_app, Hr. simpl in *. now rewrite Hc.
    + apply Forall_app. split; [now apply flush_chars | now apply IH].
Qed.

Lemma lower_chars (text : string) :
  all_chars (fun c => implb (is_word_char c) (is_token_char c)) (lower text)
  = true.
Proof.
  induction text as [|c text IH]; simpl; [reflexivity|].
  rewrite IH, andb_true_r. unfold is_token_char.
  rewrite lower_char_not_upper. now destruct (is_word_char _).
Qed.

Lemma findall_words_lower_chars (text : string) :
  Forall (fun w => w <> "" /\ all_chars is_token_char w = true)
         (findall_words (lower text)).
Proof.
  apply scan_words_chars; [apply lower_chars | reflexivity].
Qed.

Lemma lower_idempotent (text : string) : lower (lower text) = lower text.
Proof.
  induction text as [|c text IH]; simpl; [reflexivity|].
  now rewrite IH, (lower_char_fixed _ (lower_char_not_upper c)).
Qed.

Lemma Forall_filter_keeps {A} (P : A -> Prop) (f : A -> bool) (l : list A) :
  Forall P l -> Forall P (filter f l).
Proof.
  intros H. apply Forall_forall. intros x Hx.
  apply filter_In in Hx as [Hx _]. revert x Hx. now apply Forall_forall.
Qed.

(** X2: on an ASCII text every token is made of lower-case letters,
    digits and underscores only, and the tokens do not depend on the
    case of the text. *)
Theorem tokens_are_lower_case_words (text : string) :
  is_ascii text = true ->
  Forall (fun w => all_chars is_token_char w = true) (App.tokenize text)
  /\ Forall (fun w => all_chars is_token_char w = true) (Batch.tokenize text)
  /\ App.tokenize (lower text) = App.tokenize text
  /\ Batch.tokenize (lower text) = Batch.tokenize text.
Proof.
  intros _.
  assert (H : forall stop,
             Forall (fun w => all_chars is_token_char w = true)
                    (filter (keep_word stop) (findall_words (lower text)))).
  { intros stop. apply Forall_filter_keeps.
    eapply Forall_impl; [|apply findall_words_lower_chars]. now intros w [_ Hw]. }
  repeat split; try apply H.
  - unfold App.tokenize. now rewrite lower_idempotent.
  - unfold Batch.tokenize. now rewrite lower_idempotent.
Qed.

Lemma tokens_are_lower_case_words_witness :
  is_ascii "COVID-19: a Novel_Virus" = true
  /\ App.tokenize "COVID-19: a Novel_Virus" = ["covid"; "novel_virus"]
  /\ Forall (fun w => all_chars is_token_char w = true)
            (App.tokenize "COVID-19: a Novel_Virus")
  /\ Forall (fun w => all_chars is_token_char w = true)
            (Batch.tokenize "COVID-19: a Novel_Virus")
  /\ App.tokenize (lower "COVID-19: a Novel_Virus")
     = App.tokenize "COVID-19: a Novel_Virus"
  /\ Batch.tokenize (lower "COVID-19: a Novel_Virus")
     = Batch.tokenize "COVID-19: a Novel_Virus".
Proof.
  split; [reflexivity|]. split; [reflexivity|].
  apply (@tokens_are_lower_case_words "COVID-19: a Novel_Virus"). reflexivity.
Defined.

Lemma scan_words_of_word (w run : string) :
  all_chars is_word_char w = true -> scan_words run w = flush (run ++ w).
Proof.
  revert run. induction w as [|c w IH]; simpl; intros run H.
  - now rewrite string_app_nil_r.
  - apply andb_true_iff in H as [Hc Hw]. rewrite Hc, IH by assumption.
    now rewrite string_app_assoc.
Qed.

Lemma token_chars_are_word_chars (w : string) :
  all_chars is_token_char w = true ->
  all_chars is_word_char w = true /\ lower w = w.
Proof.
  induction w as [|c w IH]; simpl; [split; reflexivity|].
  unfold is_token_char at 1. rewrite !andb_true_iff, negb_true_iff.
  intros [[Hw Hu] H]. destruct (IH H) as [IH1 IH2].
  now rewrite Hw, IH1, IH2, (lower_char_fixed _ Hu).
Qed.

Lemma findall_words_of_token (w : string) :
  w <> "" -> all_chars is_token_char w = true ->
  findall_words (lower w) = [w].
Proof.
  intros Hne Hw. apply token_chars_are_word_chars in Hw as [Hw ->].
  unfold findall_words. rewrite scan_words_of_word by assumption. simpl.
  now destruct w.
Qed.

Lemma filter_idempotent {A} (f : A -> bool) (l : list A) :
  filter f (filter f l) = filter f l.
Proof.
  rewrite filter_filter. apply filter_ext. intros x. now destruct (f x).
Qed.

Lemma retokenize (stop : list string) (text : string) :
  let words := filter (keep_word stop) (findall_words (lower text)) in
  filter (keep_word stop) (findall_words (lower (join " " words))) = words.
Proof.
  intros words. rewrite keep_words_of_joined.
  assert (Hw : Forall (fun w => w <> "" /\ all_chars is_token_char w = true) words).
  { apply Forall_filter_keeps, findall_words_lower_chars. }
  transitivity (filter (keep_word stop) words);
    [|apply filter_idempotent].
  induction Hw as [|w ws [Hne Hc] _ IH]; [reflexivity|].
  cbn [flat_map]. rewrite IH, (findall_words_of_token Hne Hc).
  cbn [filter]. now destruct (keep_word stop w).
Qed.

(** X3: the text [create_word_cloud] hands to the word cloud holds
    exactly the kept words: tokenizing the joined words again gives the
    same words, in both scripts. *)
Theorem tokenize_joined_tokens (text : string) :
  App.tokenize (join " " (App.tokenize text)) = App.tokenize text
  /\ Batch.tokenize (join " " (Batch.tokenize text)) = Batch.tokenize text.
Proof.
  split; apply retokenize.
Qed.

Lemma rstrip_empty (s : string) :
  rstrip s = "" -> all_chars is_space s = true.
Proof.
  induction s as [|c s IH]; simpl; [reflexivity|].
  destruct (rstrip s); [|discriminate].
  destruct (is_space c); [intros _; now apply IH | discriminate].
Qed.

Lemma lstrip_all_space (s : string) :
  all_chars is_space (lstrip s) = true -> all_chars is_space s = true.
Proof.
  induction s as [|c s IH]; simpl; [reflexivity|].
  destruct (is_space c) eqn:Hc; simpl; [assumption|].
  now rewrite Hc.
Qed.

Lemma strip_empty (s : string) : strip s = "" -> all_chars is_space s = true.
Proof. intros H. now apply lstrip_all_space, rstrip_empty. Qed.

Lemma lower_space_is_not_word (c : ascii) :
  is_space c = true -> is_word_char (lower_char c) = false.
Proof.
  destruct c as [[] [] [] [] [] [] [] []]; vm_compute; congruence.
Qed.

Lemma findall_words_blank (s : string) :
  all_chars is_space s = true -> findall_words (lower s) = [].
Proof.
  unfold findall_words. induction s as [|c s IH]; simpl; [reflexivity|].
  rewrite andb_true_iff. intros [Hc Hs].
  now rewrite (lower_space_is_not_word _ Hc), IH.
Qed.

Lemma create_word_cloud_tokens (text : string) :
  App.create_word_cloud text
  = match App.tokenize text with
    | [] => None
    | words => Some (join " " words)
    end.
Proof.
  unfold App.create_word_cloud.
  destruct (String.eqb text "") eqn:E1; simpl.
  - apply String.eqb_eq in E1. now subst.
  - destruct (String.eqb (strip text) "") eqn:E2; [|reflexivity].
    apply String.eqb_eq, strip_empty in E2.
    unfold App.tokenize. now rewrite findall_words_blank.
Qed.

(** X4: [create_word_cloud] returns [None] exactly when no word of the
    text is kept, and otherwise draws the kept words joined by spaces:
    its test on the empty or blank text changes nothing.  Under the
    [if words:] of [main] it therefore never returns [None]. *)
Theorem create_word_cloud_of_tokens :
  (forall text,
      App.create_word_cloud text
      = match App.tokenize text with
        | [] => None
        | words => Some (join " " words)
        end)
  /\ (forall titles,
      App.title_word_cloud titles
      = match App.title_words titles with
        | [] => None
        | words => Some (join " " words)
        end).
Proof.
  split; [apply create_word_cloud_tokens|].
  intros titles. unfold App.title_word_cloud.
  rewrite create_word_cloud_tokens. unfold App.title_words.
  now destruct (App.tokenize (join_titles titles)).
Qed.

Example create_word_cloud_example :
  App.create_word_cloud "The Novel Virus, in 2 cats" = Some "novel virus cats"
  /\ App.create_word_cloud "   " = None
  /\ App.create_word_cloud "to be or do" = None.
Proof. repeat split. Qed.

(* ------------------------------------------------------------------ *)
(** ** The derived columns *)
(* ------------------------------------------------------------------ *)

Lemma len_split_zero (s : string) :
  len_split s = 0 <-> all_chars is_space s = true.
Proof.
  unfold len_split. induction s as [|c s IH]; simpl; [tauto|].
  destruct (is_space c); simpl; [exact IH | split; discriminate].
Qed.

(** X5: the word count of a cell of ASCII text is zero exactly when
    the cell is missing or holds nothing but white space. *)
Theorem word_count_zero (x : option string) :
  (forall s, x = Some s -> is_ascii s = true) ->
  (word_count x = 0
   <-> x = None \/ exists s, x = Some s /\ all_chars is_space s = true).
Proof.
  intros _. destruct x as [s|]; simpl.
  - destruct (String.eqb s "") eqn:E.
    + apply String.eqb_eq in E. subst. split; [|reflexivity].
      intros _. right. now exists "".
    + rewrite len_split_zero. split.
      * intros H. right. now exists s.
      * intros [H | (s' & H & Hs)]; [discriminate | congruence].
  - split; [now left | reflexivity].
Qed.

Lemma word_count_zero_witness :
  word_count (Some "  ") = 0 /\ word_count (Some " a ") = 1
  /\ (word_count (Some "  ") = 0
      <-> Some "  " = None
          \/ exists s, Some "  " = Some s /\ all_chars is_space s = true).
Proof.
  split; [reflexivity|]. split; [reflexivity|].
  apply (@word_count_zero (Some "  ")).
  intros s E. inversion E. reflexivity.
Defined.

Lemma word_count_fillna (x : option string) :
  word_count (Batch.fillna_empty x) = word_count x.
Proof. now destruct x. Qed.

Lemma batch_derive_is_app_derive `{DateParser} (r : RawRow) :
  Batch.derive r = with_abstract_filled (App.derive r).
Proof.
  unfold Batch.derive, App.derive, with_abstract_filled. simpl.
  now rewrite word_count_fillna.
Qed.

Lemma filter_map_commute {A B} (f : A -> B) (p : B -> bool) (q : A -> bool)
      (l : list A) :
  (forall x, p (f x) = q x) -> filter p (map f l) = map f (filter q l).
Proof.
  intros H. induction l as [|x l IH]; simpl; [reflexivity|].
  rewrite H, IH. now destruct (q x).
Qed.

(** X6: the cleaned data of the batch script is the store of the
    application restricted to the rows that have a title and a parsed
    date, missing abstracts replaced by the empty text; every other
    column, the word counts among them, is the same. *)
Theorem clean_rows_of_app_store (parser : DateParser) (raw : list RawRow) :
  Batch.clean_rows raw
  = map with_abstract_filled
        (filter Batch.has_critical_data (map App.derive raw)).
Proof.
  unfold Batch.clean_rows.
  rewrite <- (filter_map_commute with_abstract_filled Batch.has_critical_data
                Batch.has_critical_data) by reflexivity.
  rewrite map_map. f_equal. apply map_ext. intros r.
  apply batch_derive_is_app_derive.
Qed.

(** X7: the derived columns agree with the cells they come from, in
    the store of the application (one row per line of the file) and in
    the cleaned data of the batch script, whose rows moreover all have
    a title, an abstract, a date and a year. *)
Theorem derived_columns_invariant (parser : DateParser) (raw : list RawRow) :
  (Forall derived_columns_consistent (map App.derive raw)
   /\ length (map App.derive raw) = length raw)
  /\ (Forall (fun r => derived_columns_consistent r
                       /\ title r <> None /\ abstract r <> None
                       /\ publish_time r <> None /\ year r <> None)
             (Batch.clean_rows raw)
      /\ length (Batch.clean_rows raw) <= length raw).
Proof.
  split; split.
  - apply Forall_forall. intros r Hr. apply in_map_iff in Hr as (x & <- & _).
    repeat split.
  - apply length_map.
  - apply Forall_forall. intros r Hr. apply filter_In in Hr as [Hr Hc].
    apply in_map_iff in Hr as (x & <- & _).
    unfold Batch.has_critical_data in Hc. simpl in Hc.
    split; [repeat split|]. simpl.
    destruct (raw_title x); [|discriminate].
    destruct (to_datetime_coerce (raw_publish_time x)); [|discriminate].
    repeat split; try discriminate. now destruct (raw_abstract x).
  - unfold Batch.clean_rows.
    rewrite <- (length_map Batch.derive raw).
    apply subseq_length, subseq_filter.
Qed.

Lemma batch_columns_read_present (cols : list string) :
  incl batch_columns_read cols <-> incl columns_read cols.
Proof.
  unfold batch_columns_read, columns_read, incl. simpl.
  split; intros H c Hc; apply H; tauto.
Qed.

(** X8: the batch script catches nothing.  Without the file
    [clean_data] ends in [FileNotFoundError]; with a file that cannot
    be tokenized or decoded, or a file of no byte, in the reader's own
    error; with a table that lacks one of the columns it reads, in a
    [KeyError] for the first missing one, in the order [abstract],
    [publish_time], [title]; and with the three columns it returns the
    cleaned rows.  The two scripts load the same files. *)
Theorem clean_data_failures (parser : DateParser) :
  Batch.clean_data None = Raise FileNotFoundError
  /\ Batch.clean_data (Some (Damaged BadStructure)) = Raise ParserError
  /\ Batch.clean_data (Some (Damaged BadEncoding)) = Raise UnicodeDecodeError
  /\ (forall df, columns df = [] ->
        Batch.clean_data (Some (Table df)) = Raise EmptyDataError)
  /\ (forall df c, columns df <> [] ->
        first_missing batch_columns_read (columns df) c ->
        Batch.clean_data (Some (Table df)) = Raise (KeyError c))
  /\ (forall df, columns df <> [] -> ~ incl batch_columns_read (columns df) ->
        exists c, first_missing batch_columns_read (columns df) c)
  /\ (forall df, incl batch_columns_read (columns df) ->
        Batch.clean_data (Some (Table df)) = Ok (Batch.clean_rows (rows df)))
  /\ (forall fs, (exists store, App.load_data fs = Ok (Some store))
                 <-> (exists cleaned, Batch.clean_data fs = Ok cleaned)).
Proof.
  split; [reflexivity|]. split; [reflexivity|]. split; [reflexivity|].
  assert (Hempty : forall df, columns df = [] ->
                     Batch.clean_data (Some (Table df)) = Raise EmptyDataError).
  { intros df E. unfold Batch.clean_data. now rewrite (read_csv_no_header _ E). }
  split; [exact Hempty|]. split; [|split; [|split]].
  - intros df c Hne Hc. rewrite (batch_clean_data_table _ Hne).
    apply first_missing_cases in Hc
      as [[-> H1]|[(-> & H1 & H2)|(-> & H1 & H2 & H3)]].
    + now rewrite H1.
    + now rewrite H1, H2.
    + now rewrite H1, H2, H3.
  - intros df _ Hmiss. now apply first_missing_exists.
  - intros df Hall. now apply batch_clean_data_ok, batch_columns_read_present.
  - intros [[[|]|df]|]; try (split; intros [x Hx]; discriminate).
    destruct (columns df) eqn:Ec.
    + rewrite (Hempty df Ec), (read_csv_no_header_load df Ec).
      split; intros [x Hx]; discriminate.
    + assert (Hne : columns df <> []) by congruence.
      rewrite (app_load_data_table _ Hne), (batch_clean_data_table _ Hne).
      destruct (in_set "publish_time" (columns df)),
        (in_set "abstract" (columns df)), (in_set "title" (columns df));
        simpl; split; intros [x Hx]; try discriminate; eauto.
Qed.

Example different_key_errors :
  let file := Some (Table {| columns := ["title"]; rows := [] |}) in
  @App.load_data Sample.iso_parser file = Raise (KeyError "publish_time")
  /\ @Batch.clean_data Sample.iso_parser file = Raise (KeyError "abstract").
Proof. split; reflexivity. Qed.

(* ------------------------------------------------------------------ *)
(** ** Tables of counts *)
(* ------------------------------------------------------------------ *)

Section TableFacts.
Variable K : Type.
Variable eqb : K -> K -> bool.
Hypothesis eqb_true : forall x y, eqb x y = true <-> x = y.
Variable dec : forall x y : K, {x = y} + {x <> y}.

Lemma Counter_keys_NoDup (l : list K) : NoDup (map fst (Counter eqb l)).
Proof. rewrite (keys_Counter eqb eqb_true). now apply unique_NoDup. Qed.

Lemma Counter_In_iff (k : K) (c : nat) (l : list K) :
  In (k, c) (Counter eqb l) <-> 0 < c /\ c = count_occ dec l k.
Proof.
  split.
  - intros H. pose proof (Counter_counts eqb eqb_true dec _ _ _ H) as Hc.
    split; [|assumption]. rewrite Hc. apply count_occ_In.
    apply (unique_In eqb eqb_true). rewrite <- (keys_Counter eqb eqb_true).
    change k with (fst (k, c)). now apply in_map.
  - intros [Hpos ->]. apply count_occ_In in Hpos.
    apply (unique_In eqb eqb_true) in Hpos.
    rewrite <- (keys_Counter eqb eqb_true) in Hpos.
    apply in_map_iff in Hpos as ([k' c'] & E & Hin). simpl in E. subst k'.
    now rewrite <- (Counter_counts eqb eqb_true dec _ _ _ Hin).
Qed.

(** The counts of the keys that satisfy [P] add up to the number of
    elements that satisfy [P]. *)
Lemma sum_counts_filter_incr (P : K -> bool) (k : K) (d : list (K * nat)) :
  sum_counts (filter (fun kc => P (fst kc)) (incr eqb k d))
  = sum_counts (filter (fun kc => P (fst kc)) d) + (if P k then 1 else 0).
Proof.
  induction d as [|[k' c] d IH]; simpl.
  - destruct (P k); reflexivity.
  - destruct (eqb k' k) eqn:E; simpl.
    + apply eqb_true in E. subst k'. destruct (P k); simpl; lia.
    + destruct (P k'); simpl; rewrite IH; lia.
Qed.

Lemma sum_counts_filter_Counter (P : K -> bool) (l : list K) :
  sum_counts (filter (fun kc => P (fst kc)) (Counter eqb l))
  = length (filter P l).
Proof.
  induction l as [|k l IH] using rev_ind; [reflexivity|].
  rewrite Counter_snoc, sum_counts_filter_incr, IH, filter_app, length_app.
  simpl. destruct (P k); reflexivity.
Qed.

End TableFacts.

Lemma NoDup_map_StronglySorted {A B} (f : A -> B) (l : list A) :
  NoDup (map f l) -> StronglySorted (fun a b => f a <> f b) l.
Proof.
  induction l as [|x l IH]; simpl; intros H; [constructor|].
  inversion H as [|? ? Hx Hl]; subst. constructor; [now apply IH|].
  apply Forall_forall. intros z Hz E. apply Hx. rewrite E. now apply in_map.
Qed.

(** A sort whose keys are pairwise comparable puts them in strict
    order. *)
Lemma sorted_strict {A} (goes_first : A -> A -> bool) (l : list A) :
  (forall a b c, goes_first a b = true -> goes_first b c = true ->
                 goes_first a c = true) ->
  (forall a b c, goes_first a c = true ->
                 goes_first a b = true \/ goes_first b c = true) ->
  StronglySorted (fun a b => goes_first a b = true \/ goes_first b a = true) l ->
  StronglySorted (fun a b => goes_first a b = true) (sorted goes_first l).
Proof.
  intros Ht Hc Hl.
  apply StronglySorted_weaken
    with (R := stable_order goes_first
                 (fun a b => goes_first a b = true \/ goes_first b a = true)).
  - intros a b _ _ [H | [H1 [H2|H2]]]; congruence.
  - now apply sorted_stable.
Qed.

Lemma Z_ltb_trans (a b c : Z) :
  (a <? b)%Z = true -> (b <? c)%Z = true -> (a <? c)%Z = true.
Proof. rewrite !Z.ltb_lt. lia. Qed.

Lemma Z_ltb_cotrans (a b c : Z) :
  (a <? c)%Z = true -> (a <? b)%Z = true \/ (b <? c)%Z = true.
Proof. rewrite !Z.ltb_lt. lia. Qed.

Lemma sorted_Z_strict (l : list Z) :
  NoDup l -> StronglySorted Z.lt (sorted Z.ltb l).
Proof.
  intros H.
  apply StronglySorted_weaken with (R := fun a b => (a <? b)%Z = true).
  - intros a b _ _. apply Z.ltb_lt.
  - apply sorted_strict; [apply Z_ltb_trans | apply Z_ltb_cotrans|].
    assert (H' : NoDup (map (fun x : Z => x) l)) by now rewrite map_id.
    apply NoDup_map_StronglySorted in H'.
    eapply StronglySorted_weaken; [|exact H'].
    intros a b _ _ Hab. cbv beta in Hab. rewrite !Z.ltb_lt.
    lia.
Qed.

Lemma sort_index_Z_strict {V} (s : list (Z * V)) :
  NoDup (map fst s) ->
  StronglySorted (fun a b => (fst a < fst b)%Z) (sort_index Z.ltb s).
Proof.
  intros H. unfold sort_index.
  apply StronglySorted_weaken with (R := fun a b => key_asc Z.ltb a b = true).
  - intros a b _ _. apply Z.ltb_lt.
  - apply sorted_strict.
    + intros a b c. apply Z_ltb_trans.
    + intros a b c. apply Z_ltb_cotrans.
    + apply NoDup_map_StronglySorted in H.
      eapply StronglySorted_weaken; [|exact H].
      intros a b _ _ Hab. cbv beta in Hab. unfold key_asc.
      rewrite !Z.ltb_lt. lia.
Qed.

Lemma sorted_keys_NoDup {A B} (f : A -> B) (goes_first : A -> A -> bool)
      (l : list A) :
  NoDup (map f l) -> NoDup (map f (sorted goes_first l)).
Proof.
  apply Permutation_NoDup, Permutation_map, Permutation_sym, sorted_perm.
Qed.

Lemma StronglySorted_app_cross {A} (R : A -> A -> Prop) (l1 l2 : list A) :
  StronglySorted R (l1 ++ l2) ->
  forall x y, In x l1 -> In y l2 -> R x y.
Proof.
  induction l1 as [|a l1 IH]; simpl; intros H x y Hx Hy; [contradiction|].
  inversion H as [|? ? Hl Ha]; subst. destruct Hx as [<-|Hx].
  - rewrite Forall_forall in Ha. apply Ha, in_or_app. now right.
  - now apply IH.
Qed.

(** Whatever the order of the input, the sort by count puts larger
    counts first. *)
Lemma sorted_count_desc {K} (c : list (K * nat)) :
  StronglySorted (fun a b => snd b <= snd a) (sorted count_desc c).
Proof.
  apply StronglySorted_weaken
    with (R := stable_order count_desc (fun _ _ => True)).
  - intros a b _ _ [H | [H _]]; unfold count_desc in H.
    + apply Nat.ltb_lt in H. lia.
    + now apply Nat.ltb_ge in H.
  - apply sorted_stable.
    + apply count_desc_trans.
    + apply count_desc_cotrans.
    + induction c; constructor; [assumption|].
      apply Forall_forall. intros; exact I.
Qed.

Lemma count_occ_years (y : Z) (view : list Row) :
  count_occ Z.eq_dec (dropna (map year view)) y
  = length (filter (fun r => opt_eqb Z.eqb (year r) (Some y)) view).
Proof.
  induction view as [|r view IH]; simpl; [reflexivity|].
  destruct (year r) as [z|]; simpl; [|exact IH].
  destruct (Z.eq_dec z y) as [->|N].
  - rewrite Z.eqb_refl. simpl. now rewrite IH.
  - apply Z.eqb_neq in N. now rewrite N.
Qed.

Lemma count_occ_cells (get : Row -> option string) (k : string) (view : list Row) :
  count_occ string_dec (dropna (map get view)) k
  = length (filter (fun r => opt_eqb String.eqb (get r) (Some k)) view).
Proof.
  induction view as [|r view IH]; simpl; [reflexivity|].
  destruct (get r) as [z|]; simpl; [|exact IH].
  destruct (string_dec z k) as [->|N].
  - rewrite String.eqb_refl. simpl. now rewrite IH.
  - apply String.eqb_neq in N. now rewrite N.
Qed.

Lemma dropna_In {K} (x : K) (col : list (option K)) :
  In x (dropna col) <-> In (Some x) col.
Proof.
  induction col as [|[z|] col IH]; simpl.
  - tauto.
  - rewrite IH. split; (intros [E|H]; [left; congruence | now right]).
  - rewrite IH. split; [now right | intros [E|H]; [discriminate | assumption]].
Qed.

(** X9: the options of the three sidebar filters: the years are the
    years present in the store, each once, in ascending order, a
    missing year never among them; the journals and the sources are
    the values of their column, each once, the missing value among them
    when the column has one. *)
Theorem sidebar_options (df : list Row) :
  StronglySorted Z.lt (App.years df)
  /\ (forall y, In y (App.years df) <-> In (Some y) (map year df))
  /\ NoDup (App.journals df)
  /\ (forall j, In j (App.journals df) <-> In j (map journal df))
  /\ NoDup (App.sources df)
  /\ (forall s, In s (App.sources df) <-> In s (map source df)).
Proof.
  unfold App.years, App.journals, App.sources.
  split; [apply sorted_Z_strict, unique_NoDup, Z.eqb_eq|].
  split; [intros y; rewrite sorted_In, (unique_In _ Z.eqb_eq); apply dropna_In|].
  split; [apply unique_NoDup, opt_eqb_string_true|].
  split; [intros j; apply (unique_In _ opt_eqb_string_true)|].
  split; [apply unique_NoDup, opt_eqb_string_true|].
  intros j; apply (unique_In _ opt_eqb_string_true).
Qed.

Lemma value_counts_keys_NoDup {K} (eqb : K -> K -> bool) (col : list (option K)) :
  (forall x y, eqb x y = true <-> x = y) ->
  NoDup (map fst (value_counts eqb col)).
Proof.
  intros H. unfold value_counts.
  now apply sorted_keys_NoDup, Counter_keys_NoDup.
Qed.

Lemma year_counts_In (y : Z) (c : nat) (view : list Row) :
  In (y, c) (App.year_counts view)
  <-> 0 < c
      /\ c = length (filter (fun r => opt_eqb Z.eqb (year r) (Some y)) view).
Proof.
  unfold App.year_counts, sort_index, value_counts.
  rewrite !sorted_In, (Counter_In_iff Z.eqb Z.eqb_eq Z.eq_dec).
  now rewrite count_occ_years.
Qed.

(** X10: the table of publications by year has one line for each year
    present in the view, in strictly ascending order of the years, and
    the count of a year is the number of rows of that year; rows
    without a year are in no line.  The batch script computes the same
    table. *)
Theorem year_counts_table (view : list Row) :
  StronglySorted (fun a b => (fst a < fst b)%Z) (App.year_counts view)
  /\ (forall y c,
        In (y, c) (App.year_counts view)
        <-> 0 < c
            /\ c = length (filter (fun r => opt_eqb Z.eqb (year r) (Some y))
                                  view))
  /\ Batch.analyze_publications_by_year view = App.year_counts view.
Proof.
  split; [|split].
  - apply sort_index_Z_strict, value_counts_keys_NoDup, Z.eqb_eq.
  - intros y c. apply year_counts_In.
  - reflexivity.
Qed.

Lemma value_counts_In (get : Row -> option string) (k : string) (c : nat)
      (view : list Row) :
  In (k, c) (value_counts String.eqb (map get view))
  <-> 0 < c
      /\ c = length (filter (fun r => opt_eqb String.eqb (get r) (Some k)) view).
Proof.
  unfold value_counts.
  rewrite sorted_In, (Counter_In_iff String.eqb String.eqb_eq string_dec).
  now rewrite count_occ_cells.
Qed.

Lemma head_of_value_counts (get : Row -> option string) (n : nat)
      (view : list Row) :
  let full := value_counts String.eqb (map get view) in
  let rows_of k :=
    length (filter (fun r => opt_eqb String.eqb (get r) (Some k)) view) in
  StronglySorted (fun a b => snd b <= snd a) (head n full)
  /\ length (head n full) <= n
  /\ (forall k c, In (k, c) (head n full) -> 0 < c /\ c = rows_of k)
  /\ (forall k c k',
        In (k, c) (head n full) -> In (Some k') (map get view) ->
        ~ In k' (map fst (head n full)) -> rows_of k' <= c).
Proof.
  intros full rows_of. unfold head.
  split; [apply StronglySorted_firstn, sorted_count_desc|].
  split; [apply firstn_le_length|]. split.
  - intros k c Hk. apply (value_counts_In get k c view).
    eapply subseq_In; [apply subseq_firstn|eassumption].
  - intros k c k' Hk Hk' Hout.
    assert (Hfull : In (k', rows_of k') full).
    { apply value_counts_In. split; [|reflexivity].
      unfold rows_of. rewrite <- count_occ_cells.
      apply count_occ_In. now apply dropna_In. }
    rewrite <- (firstn_skipn n full) in Hfull.
    apply in_app_or in Hfull as [Hin|Hin].
    + exfalso. apply Hout. change k' with (fst (k', rows_of k')).
      now apply in_map.
    + assert (Hs : StronglySorted (fun a b => snd b <= snd a)
                     (firstn n full ++ skipn n full)).
      { rewrite firstn_skipn. apply sorted_count_desc. }
      exact (StronglySorted_app_cross _ _ Hs _ _ Hk Hin).
Qed.

(** X11: the table of the top journals has at most ten lines, larger
    counts first; the count of a journal is the number of rows of that
    journal, rows without a journal counting for none; and a journal of
    the view that is not in the table has no more rows than any journal
    in it.  The batch script computes the same table. *)
Theorem journal_counts_top_10 (view : list Row) :
  StronglySorted (fun a b => snd b <= snd a) (App.journal_counts view)
  /\ length (App.journal_counts view) <= 10
  /\ (forall j c,
        In (j, c) (App.journal_counts view) ->
        0 < c
        /\ c = length (filter (fun r => opt_eqb String.eqb (journal r) (Some j))
                              view))
  /\ (forall j c j',
        In (j, c) (App.journal_counts view) ->
        In (Some j') (map journal view) ->
        ~ In j' (map fst (App.journal_counts view)) ->
        length (filter (fun r => opt_eqb String.eqb (journal r) (Some j')) view)
        <= c)
  /\ Batch.analyze_top_journals view = App.journal_counts view.
Proof.
  destruct (head_of_value_counts journal 10 view) as (H1 & H2 & H3 & H4).
  split; [exact H1|]. split; [exact H2|]. split; [exact H3|].
  split; [exact H4 | reflexivity].
Qed.

Lemma value_counts_sum (get : Row -> option string) (view : list Row) :
  sum_counts (value_counts String.eqb (map get view))
  = length (dropna (map get view)).
Proof.
  unfold value_counts. rewrite (sum_counts_perm (sorted_perm _ _)).
  apply sum_counts_Counter.
Qed.

(** X12: the journal distribution of the application and the source
    table of the batch script hold one line for each value of their
    column, larger counts first, the count being the number of rows
    with that value; the counts add up to the number of rows whose
    cell is not missing. *)
Theorem value_counts_tables (view : list Row) :
  (StronglySorted (fun a b => snd b <= snd a) (App.journal_dist view)
   /\ NoDup (map fst (App.journal_dist view))
   /\ (forall j c,
         In (j, c) (App.journal_dist view)
         <-> 0 < c
             /\ c = length (filter (fun r => opt_eqb String.eqb (journal r) (Some j))
                                   view))
   /\ sum_counts (App.journal_dist view) = length (dropna (map journal view)))
  /\ (StronglySorted (fun a b => snd b <= snd a) (Batch.analyze_sources view)
      /\ NoDup (map fst (Batch.analyze_sources view))
      /\ (forall s c,
            In (s, c) (Batch.analyze_sources view)
            <-> 0 < c
                /\ c = length (filter (fun r => opt_eqb String.eqb (source r) (Some s))
                                      view))
      /\ sum_counts (Batch.analyze_sources view)
         = length (dropna (map source view))).
Proof.
  unfold App.journal_dist, Batch.analyze_sources.
  split; (split; [apply sorted_count_desc|]);
    (split; [apply value_counts_keys_NoDup, String.eqb_eq|]);
    (split; [intros k c; apply value_counts_In | apply value_counts_sum]).
Qed.

Example journal_counts_example :
  App.journal_counts Sample.store = [("A", 2); ("B", 1)]
  /\ Batch.analyze_sources Sample.store = [("PMC", 2)].
Proof. split; reflexivity. Qed.

(* ------------------------------------------------------------------ *)
(** ** Counts by month *)
(* ------------------------------------------------------------------ *)

Lemma period_eqb_true (a b : Z * Z) : period_eqb a b = true <-> a = b.
Proof.
  destruct a as [y m], b as [y' m']. unfold period_eqb. simpl.
  rewrite andb_true_iff, !Z.eqb_eq. split; [intros [-> ->]; reflexivity|].
  intros E. inversion E. now split.
Qed.

Lemma period_ltb_spec (a b : Z * Z) :
  period_ltb a b = true
  <-> (fst a < fst b \/ (fst a = fst b /\ snd a < snd b))%Z.
Proof.
  unfold period_ltb.
  now rewrite orb_true_iff, andb_true_iff, !Z.ltb_lt, Z.eqb_eq.
Qed.

Lemma filter_Permutation {A} (f : A -> bool) (l l' : list A) :
  Permutation l l' -> Permutation (filter f l) (filter f l').
Proof.
  induction 1 as [|x l l' _ IH|x y l|l l' l'' _ IH1 _ IH2]; simpl.
  - constructor.
  - destruct (f x); [now constructor | assumption].
  - destruct (f x), (f y); try apply Permutation_refl. apply perm_swap.
  - now transitivity (filter f l').
Qed.

Lemma monthly_data_sorted (view : list Row) :
  StronglySorted (fun a b => period_ltb (fst a) (fst b) = true)
                 (App.monthly_data view).
Proof.
  unfold App.monthly_data, groupby_size.
  apply (sorted_strict (key_asc period_ltb)).
  - intros a b c. unfold key_asc. rewrite !period_ltb_spec. lia.
  - intros a b c. unfold key_asc. rewrite !period_ltb_spec. lia.
  - eapply StronglySorted_weaken;
      [|apply (NoDup_map_StronglySorted fst),
          (Counter_keys_NoDup period_eqb period_eqb_true)].
    intros a b _ _ Hab. cbv beta in Hab. unfold key_asc.
    rewrite !period_ltb_spec.
    destruct (fst a) as [y m], (fst b) as [y' m']. simpl.
    assert (y <> y' \/ m <> m')%Z by
      (destruct (Z.eq_dec y y'); [right; congruence | now left]).
    lia.
Qed.

Lemma periods_length (view : list Row) :
  length (dropna (map (fun r => to_period_M (publish_time r)) view))
  = length (dropna (map publish_time view)).
Proof.
  induction view as [|r view IH]; simpl; [reflexivity|].
  destruct (publish_time r); simpl; now rewrite IH.
Qed.

Lemma monthly_data_sum (view : list Row) :
  sum_counts (App.monthly_data view) = length (dropna (map publish_time view)).
Proof.
  unfold App.monthly_data, groupby_size.
  rewrite (sum_counts_perm (sorted_perm _ _)), sum_counts_Counter.
  apply periods_length.
Qed.

Lemma periods_of_year (y : Z) (view : list Row) :
  Forall year_of_date view ->
  length (filter (fun p => (fst p =? y)%Z)
                 (dropna (map (fun r => to_period_M (publish_time r)) view)))
  = length (filter (fun r => opt_eqb Z.eqb (year r) (Some y)) view).
Proof.
  induction 1 as [|r view Hr _ IH]; simpl; [reflexivity|].
  unfold year_of_date in Hr. rewrite Hr.
  destruct (publish_time r) as [ts|]; simpl; [|exact IH].
  destruct (ts_year ts =? y)%Z; simpl; now rewrite IH.
Qed.

Lemma monthly_data_of_year (y : Z) (view : list Row) :
  Forall year_of_date view ->
  sum_counts (filter (fun e => (fst (fst e) =? y)%Z) (App.monthly_data view))
  = length (filter (fun r => opt_eqb Z.eqb (year r) (Some y)) view).
Proof.
  intros H. unfold App.monthly_data, groupby_size.
  rewrite (sum_counts_perm (filter_Permutation _ (sorted_perm _ _))).
  rewrite (sum_counts_filter_Counter period_eqb period_eqb_true
             (fun p => (fst p =? y)%Z)).
  now apply periods_of_year.
Qed.

Lemma dates_length (view : list Row) :
  Forall year_of_date view ->
  length (dropna (map publish_time view)) = length (dropna (map year view)).
Proof.
  induction 1 as [|r view Hr _ IH]; simpl; [reflexivity|].
  unfold year_of_date in Hr. rewrite Hr.
  destruct (publish_time r); simpl; now rewrite IH.
Qed.

Lemma loaded_view_year_of_date `{DateParser} (c : App.FilterCriteria)
      (raw : list RawRow) :
  Forall year_of_date (App.filtered_df c (map App.derive raw)).
Proof.
  apply Forall_filter_keeps, Forall_forall. intros r Hr.
  apply in_map_iff in Hr as (x & <- & _). reflexivity.
Qed.

(** X13: the monthly counts come in strictly ascending order of the
    months and count the rows that have a date.  On a view filtered
    from a loaded store every row is counted, and the months of one
    year add up to the count of that year. *)
Theorem monthly_data_counts :
  (forall view,
      StronglySorted (fun a b => period_ltb (fst a) (fst b) = true)
                     (App.monthly_data view)
      /\ sum_counts (App.monthly_data view)
         = length (dropna (map publish_time view)))
  /\ (forall (parser : DateParser) (c : App.FilterCriteria) (raw : list RawRow),
      let view := App.filtered_df c (map App.derive raw) in
      sum_counts (App.monthly_data view) = length view
      /\ forall y n,
          In (y, n) (App.year_counts view) ->
          sum_counts (filter (fun e => (fst (fst e) =? y)%Z)
                             (App.monthly_data view)) = n).
Proof.
  split.
  - intros view. split; [apply monthly_data_sorted | apply monthly_data_sum].
  - intros parser c raw view.
    pose proof (loaded_view_year_of_date c raw) as Hv. fold view in Hv. split.
    + rewrite monthly_data_sum, (dates_length Hv).
      apply dropna_years_length, filtered_df_has_year.
    + intros y n Hn. apply year_counts_In in Hn as [_ ->].
      now apply monthly_data_of_year.
Qed.

Example monthly_data_example :
  App.monthly_data Sample.store = [((2020%Z, 3%Z), 1); ((2021%Z, 1%Z), 1)].
Proof. reflexivity. Qed.

(* ------------------------------------------------------------------ *)
(** ** Means by year *)
(* ------------------------------------------------------------------ *)

Lemma StronglySorted_map_image {A B} (f : A -> B) (R : B -> B -> Prop)
      (l : list A) :
  StronglySorted (fun a b => R (f a) (f b)) l -> StronglySorted R (map f l).
Proof.
  induction 1 as [|x l _ IH Hx]; simpl; constructor; [assumption|].
  apply Forall_forall. intros z Hz. apply in_map_iff in Hz as (a & <- & Ha).
  rewrite Forall_forall in Hx. now apply Hx.
Qed.

(** Two strictly ascending lists with the same elements are equal. *)
Lemma strictly_sorted_eq (l1 l2 : list Z) :
  StronglySorted Z.lt l1 -> StronglySorted Z.lt l2 ->
  (forall x, In x l1 <-> In x l2) -> l1 = l2.
Proof.
  intros H1. revert l2. induction H1 as [|a l1 Hl1 IH Ha]; intros l2 H2 Hin.
  - destruct l2 as [|b l2]; [reflexivity|].
    exfalso. apply (Hin b). now left.
  - destruct H2 as [|b l2 Hl2 Hb].
    + exfalso. apply (Hin a). now left.
    + rewrite Forall_forall in Ha, Hb.
      assert (E : a = b).
      { destruct (proj1 (Hin a) (or_introl eq_refl)) as [E|Ha2]; [now symmetry|].
        destruct (proj2 (Hin b) (or_introl eq_refl)) as [E|Hb1]; [assumption|].
        specialize (Ha _ Hb1). specialize (Hb _ Ha2). lia. }
      subst b. f_equal. apply IH; [assumption|].
      intros x. split; intros Hx.
      * destruct (proj1 (Hin x) (or_intror Hx)) as [E|Hx2]; [|assumption].
        subst x. specialize (Ha _ Hx). lia.
      * destruct (proj2 (Hin x) (or_intror Hx)) as [E|Hx1]; [|assumption].
        subst x. specialize (Hb _ Hx). lia.
Qed.

Lemma years_In (y : Z) (df : list Row) :
  In y (App.years df) <-> In (Some y) (map year df).
Proof.
  unfold App.years. rewrite sorted_In, (unique_In _ Z.eqb_eq). apply dropna_In.
Qed.

Lemma year_counts_keys (view : list Row) :
  map fst (App.year_counts view) = App.years view.
Proof.
  apply strictly_sorted_eq.
  - apply StronglySorted_map_image.
    apply sort_index_Z_strict, value_counts_keys_NoDup, Z.eqb_eq.
  - apply sorted_Z_strict, unique_NoDup, Z.eqb_eq.
  - intros y. rewrite years_In, <- dropna_In. split.
    + intros H. apply in_map_iff in H as ([y' c] & E & He). simpl in E. subst y'.
      apply year_counts_In in He as [Hpos Hc].
      rewrite <- count_occ_years in Hc. rewrite Hc in Hpos.
      now apply count_occ_In in Hpos.
    + intros H. apply (count_occ_In Z.eq_dec) in H.
      change y with (fst (y, count_occ Z.eq_dec (dropna (map year view)) y)).
      apply in_map, year_counts_In. split; [assumption|].
      apply count_occ_years.
Qed.

Lemma combine_map {A B C} (f : A -> B) (g : A -> C) (l : list A) :
  combine (map f l) (map g l) = map (fun x => (f x, g x)) l.
Proof. induction l as [|x l IH]; simpl; [reflexivity | now rewrite IH]. Qed.

Lemma abstract_trend_unfold (view : list Row) :
  App.abstract_trend view
  = map (fun y =>
           (y, mean (map abstract_word_count
                         (filter (fun r => opt_eqb Z.eqb (year r) (Some y)) view))))
        (App.years view).
Proof.
  unfold App.abstract_trend, groupby_mean, App.years.
  apply map_ext. intros y. f_equal. f_equal.
  rewrite combine_map.
  rewrite (filter_map_commute (fun r => (year r, abstract_word_count r))
             (fun kv => opt_eqb Z.eqb (fst kv) (Some y))
             (fun r => opt_eqb Z.eqb (year r) (Some y))) by reflexivity.
  now rewrite map_map.
Qed.

Lemma mean_defined (col : list nat) : col <> [] -> mean col <> None.
Proof. destruct col; [congruence | discriminate]. Qed.

(* ------------------------------------------------------------------ *)
(** ** The filter as an operation on views *)
(* ------------------------------------------------------------------ *)

Lemma isin_string_In (cell : option string) (values : list (option string)) :
  isin String.eqb cell values = true <-> In cell values.
Proof.
  unfold isin. rewrite existsb_exists. split.
  - intros (v & Hv & E). apply opt_eqb_string_true in E. now subst.
  - intros H. exists cell. split; [assumption | now apply opt_eqb_string_true].
Qed.

Lemma isin_year_In (cell : option Z) (values : list Z) :
  isin Z.eqb cell (map Some values) = true
  <-> exists y, cell = Some y /\ In y values.
Proof.
  unfold isin. rewrite existsb_exists. split.
  - intros (v & Hv & E). apply opt_eqb_Z_true in E. subst v.
    apply in_map_iff in Hv as (y & <- & Hy). now exists y.
  - intros (y & -> & Hy). exists (Some y).
    split; [now apply in_map | now apply opt_eqb_Z_true].
Qed.

Lemma mask_spec (c : App.FilterCriteria) (r : Row) :
  App.mask c r = true
  <-> (exists y, year r = Some y /\ In y (App.selected_years c))
      /\ In (journal r) (App.selected_journals c)
      /\ In (source r) (App.selected_sources c).
Proof.
  unfold App.mask.
  rewrite !andb_true_iff, isin_year_In, !isin_string_In. tauto.
Qed.

(** X15: a row is in the filtered view exactly when it is in the frame,
    has a year among the selected years, and has its journal and its
    source (missing or not) among the selected ones.  Filtering is
    idempotent, two filters commute, a frame is filtered row by row,
    and an empty selection of years, of journals or of sources gives
    the empty view. *)
Theorem filtered_df_algebra (c c' : App.FilterCriteria) (df df' : list Row) :
  (forall r, In r (App.filtered_df c df)
             <-> In r df
                 /\ (exists y, year r = Some y /\ In y (App.selected_years c))
                 /\ In (journal r) (App.selected_journals c)
                 /\ In (source r) (App.selected_sources c))
  /\ App.filtered_df c (App.filtered_df c df) = App.filtered_df c df
  /\ App.filtered_df c (App.filtered_df c' df)
     = App.filtered_df c' (App.filtered_df c df)
  /\ App.filtered_df c (df ++ df') = App.filtered_df c df ++ App.filtered_df c df'
  /\ (forall js ss, App.filtered_df (App.mkCriteria [] js ss) df = [])
  /\ (forall ys ss, App.filtered_df (App.mkCriteria ys [] ss) df = [])
  /\ (forall ys js, App.filtered_df (App.mkCriteria ys js []) df = []).
Proof.
  unfold App.filtered_df.
  split; [intros r; now rewrite filter_In, mask_spec|].
  split; [apply filter_idempotent|].
  split; [rewrite !filter_filter; apply filter_ext; intros r; apply andb_comm|].
  split; [apply filter_app|].
  assert (Hnone : forall c0, (forall r, App.mask c0 r = false) ->
                             filter (App.mask c0) df = []).
  { intros c0 H. induction df as [|r l IH]; simpl; [reflexivity|].
    now rewrite H. }
  repeat split; intros; apply Hnone; intros r; unfold App.mask; simpl.
  - reflexivity.
  - now rewrite andb_false_r.
  - now rewrite andb_false_r.
Qed.

Lemma dropna_years_filter_has_year (df : list Row) :
  dropna (map year (filter has_year df)) = dropna (map year df).
Proof.
  induction df as [|r df IH]; simpl; [reflexivity|].
  unfold has_year at 1. destruct (year r) eqn:E; simpl; rewrite ?E, IH; reflexivity.
Qed.

Lemma years_of_default_view (df : list Row) :
  App.years (App.filtered_df (App.default_criteria df) df) = App.years df.
Proof.
  unfold App.filtered_df.
  rewrite (filter_ext_in _ _ _ (default_mask df)).
  unfold App.years. now rewrite dropna_years_filter_has_year.
Qed.

(** X14: the average abstract length by year has one line for each
    year of the publications-by-year table of the same view, in the
    same ascending order; its value is the mean over the rows of that
    year, and no line is without a value: a group is never empty.  On
    a filtered view every year of the table is a selected year and a
    year option of the store, and with the default selection the years
    of the table are the year options of the store. *)
Theorem abstract_trend_groups :
  (forall view,
      map fst (App.abstract_trend view) = map fst (App.year_counts view)
      /\ (forall y m,
            In (y, m) (App.abstract_trend view) ->
            m = mean (map abstract_word_count
                          (filter (fun r => opt_eqb Z.eqb (year r) (Some y)) view))
            /\ m <> None))
  /\ (forall c df y,
        In y (map fst (App.abstract_trend (App.filtered_df c df))) ->
        In y (App.selected_years c) /\ In y (App.years df))
  /\ (forall df,
        map fst (App.abstract_trend
                   (App.filtered_df (App.default_criteria df) df))
        = App.years df).
Proof.
  assert (Hkeys : forall view, map fst (App.abstract_trend view) = App.years view).
  { intros view. rewrite abstract_trend_unfold, map_map. simpl. apply map_id. }
  split; [|split].
  - intros view. split; [now rewrite Hkeys, year_counts_keys|].
    rewrite abstract_trend_unfold.
    intros y m H. apply in_map_iff in H as (y' & E & Hy). inversion E; subst.
    split; [reflexivity|]. apply mean_defined.
    apply years_In in Hy.
    intros Hnil. apply map_eq_nil in Hnil.
    apply in_map_iff in Hy as (r & Hr & Hin).
    assert (Hf : In r (filter (fun r => opt_eqb Z.eqb (year r) (Some y)) view)).
    { apply filter_In. split; [assumption|]. rewrite Hr. simpl. apply Z.eqb_refl. }
    rewrite Hnil in Hf. contradiction.
  - intros c df y Hy. rewrite Hkeys in Hy. apply years_In in Hy.
    apply in_map_iff in Hy as (r & Hr & Hin).
    apply filter_In in Hin as [Hin Hmask].
    apply mask_spec in Hmask as ((y' & Hy' & Hsel) & _).
    rewrite Hr in Hy'. inversion Hy'; subst y'. split; [assumption|].
    apply years_In. rewrite <- Hr. now apply in_map.
  - intros df. now rewrite Hkeys, years_of_default_view.
Qed.

(* ------------------------------------------------------------------ *)
(** ** The metrics of a view *)
(* ------------------------------------------------------------------ *)

Lemma fold_min_spec (xs : list Z) (x : Z) :
  let m := fold_left (fun m y => if (y <? m)%Z then y else m) xs x in
  (m = x \/ In m xs) /\ (m <= x)%Z /\ Forall (fun y => (m <= y)%Z) xs.
Proof.
  revert x. induction xs as [|a xs IH]; intros x; simpl.
  - repeat split; [now left | lia | constructor].
  - destruct (IH (if (a <? x)%Z then a else x)) as (H1 & H2 & H3).
    destruct (Z.ltb_spec a x) as [Hlt|Hge]; (split; [|split]).
    + destruct H1 as [->|H1]; right; [now left | now right].
    + lia.
    + constructor; [assumption|]. exact H3.
    + destruct H1 as [->|H1]; [now left | right; now right].
    + assumption.
    + constructor; [lia | exact H3].
Qed.

Lemma fold_max_spec (xs : list Z) (x : Z) :
  let m := fold_left (fun m y => if (m <? y)%Z then y else m) xs x in
  (m = x \/ In m xs) /\ (x <= m)%Z /\ Forall (fun y => (y <= m)%Z) xs.
Proof.
  revert x. induction xs as [|a xs IH]; intros x; simpl.
  - repeat split; [now left | lia | constructor].
  - destruct (IH (if (x <? a)%Z then a else x)) as (H1 & H2 & H3).
    destruct (Z.ltb_spec x a) as [Hlt|Hge]; (split; [|split]).
    + destruct H1 as [->|H1]; right; [now left | now right].
    + lia.
    + constructor; [assumption|]. exact H3.
    + destruct H1 as [->|H1]; [now left | right; now right].
    + assumption.
    + constructor; [lia | exact H3].
Qed.

Lemma min_Z_spec (col : list (option Z)) (x : Z) :
  In (Some x) col ->
  exists lo, min_Z col = Some lo /\ In (Some lo) col
             /\ forall y, In (Some y) col -> (lo <= y)%Z.
Proof.
  intros Hx. apply dropna_In in Hx. unfold min_Z, extremum.
  setoid_rewrite <- dropna_In.
  destruct (dropna col) as [|a xs]; [contradiction|].
  destruct (fold_min_spec xs a) as (H1 & H2 & H3). eexists.
  split; [reflexivity|]. split.
  - destruct H1 as [->|H1]; [now left | now right].
  - rewrite Forall_forall in H3. intros y [<-|Hy]; [assumption | now apply H3].
Qed.

Lemma max_Z_spec (col : list (option Z)) (x : Z) :
  In (Some x) col ->
  exists hi, max_Z col = Some hi /\ In (Some hi) col
             /\ forall y, In (Some y) col -> (y <= hi)%Z.
Proof.
  intros Hx. apply dropna_In in Hx. unfold max_Z, extremum.
  setoid_rewrite <- dropna_In.
  destruct (dropna col) as [|a xs]; [contradiction|].
  destruct (fold_max_spec xs a) as (H1 & H2 & H3). eexists.
  split; [reflexivity|]. split.
  - destruct H1 as [->|H1]; [now left | now right].
  - rewrite Forall_forall in H3. intros y [<-|Hy]; [assumption | now apply H3].
Qed.

Lemma unique_length {K} (eqb : K -> K -> bool) (l : list K) :
  length (unique eqb l) <= length l.
Proof.
  induction l as [|x l IH]; simpl; [lia|].
  pose proof (subseq_length (subseq_filter (fun y => negb (eqb x y))
                                           (unique eqb l))). lia.
Qed.

Lemma dropna_length {K} (col : list (option K)) :
  length (dropna col) <= length col.
Proof. induction col as [|[x|] col IH]; simpl; lia. Qed.

(** X16: on a filtered view that is not empty the metrics are all
    defined: the date range goes from the smallest to the largest year
    of the view, both years of some row, and every row has its year in
    that range; the average abstract length has a value; and there are
    no more distinct journals than rows. *)
Theorem summary_of_filtered_view (c : App.FilterCriteria) (df : list Row) :
  App.filtered_df c df <> [] ->
  exists lo hi,
    App.year_min (App.summary (App.filtered_df c df)) = Some lo
    /\ App.year_max (App.summary (App.filtered_df c df)) = Some hi
    /\ In (Some lo) (map year (App.filtered_df c df))
    /\ In (Some hi) (map year (App.filtered_df c df))
    /\ (forall r, In r (App.filtered_df c df) ->
                  exists y, year r = Some y /\ (lo <= y <= hi)%Z)
    /\ App.avg_abstract_words (App.summary (App.filtered_df c df)) <> None
    /\ App.unique_journal_count (App.summary (App.filtered_df c df))
       <= App.total (App.summary (App.filtered_df c df)).
Proof.
  intros Hne. set (view := App.filtered_df c df) in *.
  assert (Hyears : forall r, In r view -> exists y, year r = Some y).
  { intros r Hr. pose proof (filtered_df_has_year c df) as H.
    rewrite Forall_forall in H. specialize (H r Hr). unfold has_year in H.
    destruct (year r) as [y|]; [now exists y | discriminate]. }
  destruct view as [|r0 view'] eqn:Ev; [congruence|]. rewrite <- Ev in *.
  destruct (Hyears r0) as [y0 Hy0]; [rewrite Ev; now left|].
  assert (Hin0 : In (Some y0) (map year view)).
  { rewrite <- Hy0. apply in_map. rewrite Ev. now left. }
  destruct (@min_Z_spec _ _ Hin0) as (lo & Hlo & Hlo_in & Hlo_le).
  destruct (@max_Z_spec _ _ Hin0) as (hi & Hhi & Hhi_in & Hhi_le).
  exists lo, hi. unfold App.summary. simpl.
  split; [assumption|]. split; [assumption|].
  split; [assumption|]. split; [assumption|]. split; [|split].
  - intros r Hr. destruct (Hyears r Hr) as [y Hy]. exists y.
    split; [assumption|].
    assert (In (Some y) (map year view)) by (rewrite <- Hy; now apply in_map).
    split; [now apply Hlo_le | now apply Hhi_le].
  - apply mean_defined. rewrite Ev. discriminate.
  - unfold nunique. etransitivity; [apply unique_length|].
    etransitivity; [apply dropna_length|]. now rewrite length_map.
Qed.

Lemma summary_of_filtered_view_witness :
  exists lo hi,
    App.year_min (App.summary (App.filtered_df Sample.narrow_criteria Sample.store))
    = Some lo
    /\ App.year_max (App.summary (App.filtered_df Sample.narrow_criteria Sample.store))
       = Some hi
    /\ In (Some lo) (map year (App.filtered_df Sample.narrow_criteria Sample.store))
    /\ In (Some hi) (map year (App.filtered_df Sample.narrow_criteria Sample.store))
    /\ (forall r, In r (App.filtered_df Sample.narrow_criteria Sample.store) ->
                  exists y, year r = Some y /\ (lo <= y <= hi)%Z)
    /\ App.avg_abstract_words
         (App.summary (App.filtered_df Sample.narrow_criteria Sample.store))
       <> None
    /\ App.unique_journal_count
         (App.summary (App.filtered_df Sample.narrow_criteria Sample.store))
       <= App.total
            (App.summary (App.filtered_df Sample.narrow_criteria Sample.store)).
Proof.
  apply (summary_of_filtered_view Sample.narrow_criteria Sample.store).
  discriminate.
Defined.

Example summary_example :
  App.summary Sample.store
  = App.mkSummary 3 2 (Some 2020%Z) (Some 2021%Z) (Some (4 # 3)).
Proof. reflexivity. Qed.

(* ------------------------------------------------------------------ *)
(** ** The search as an operation on views *)
(* ------------------------------------------------------------------ *)

Lemma search_compiled `{Regex} (search_term : string) (rx : regex)
      (df view : list Row) :
  search_term <> "" -> re_compile search_term = Some rx ->
  is_object_dtype (map title df) = true ->
  is_object_dtype (map abstract df) = true ->
  App.search search_term df view = Ok (filter (matches rx) view).
Proof.
  intros Hterm Hrx Ht Ha.
  now rewrite (search_outcome df view Hterm), Ht, Hrx, Ha.
Qed.

(** X17: in a loaded frame whose title column and abstract column
    each hold a text (else the search raises [AttributeError]), and for
    a search term that compiles, the search keeps exactly the rows
    whose title or abstract is matched; searching the result again
    changes nothing, and searching a filtered view gives the filtered
    view of the searched frame. *)
Theorem search_algebra (engine : Regex) (search_term : string) (rx : regex)
        (c : App.FilterCriteria) (df : list Row) :
  search_term <> "" -> re_compile search_term = Some rx ->
  is_object_dtype (map title df) = true ->
  is_object_dtype (map abstract df) = true ->
  exists found,
    App.search search_term df df = Ok found
    /\ (forall r, In r found
                  <-> In r df /\ (cell_contains rx (title r) = true
                                  \/ cell_contains rx (abstract r) = true))
    /\ App.search search_term df found = Ok found
    /\ App.search search_term df (App.filtered_df c df)
       = Ok (App.filtered_df c found).
Proof.
  intros Hterm Hrx Ht Ha. exists (filter (matches rx) df).
  rewrite !(search_compiled df _ Hterm Hrx Ht Ha).
  split; [reflexivity|]. split; [|split].
  - intros r. rewrite filter_In. unfold matches. now rewrite orb_true_iff.
  - now rewrite filter_idempotent.
  - unfold App.filtered_df. rewrite !filter_filter. f_equal.
    apply filter_ext. intros r. apply andb_comm.
Qed.

Lemma search_algebra_witness :
  exists found,
    @App.search Sample.plain_regex "virus" Sample.store Sample.store = Ok found
    /\ (forall r, In r found
                  <-> In r Sample.store
                      /\ (@cell_contains Sample.plain_regex "virus" (title r) = true
                          \/ @cell_contains Sample.plain_regex "virus" (abstract r)
                             = true))
    /\ @App.search Sample.plain_regex "virus" Sample.store found = Ok found
    /\ @App.search Sample.plain_regex "virus" Sample.store
         (App.filtered_df Sample.narrow_criteria Sample.store)
       = Ok (App.filtered_df Sample.narrow_criteria found).
Proof.
  apply (@search_algebra Sample.plain_regex "virus" "virus"
           Sample.narrow_criteria Sample.store).
  - discriminate.
  - reflexivity.
  - reflexivity.
  - reflexivity.
Defined.

(* ------------------------------------------------------------------ *)
(** ** The summary report of the batch script *)
(* ------------------------------------------------------------------ *)

Lemma max_count_bound (counts : list nat) (c : nat) :
  In c counts -> c <= fold_right Nat.max 0 counts.
Proof.
  induction counts as [|a counts IH]; simpl; [contradiction|].
  intros [->|H]; [lia | specialize (IH H); lia].
Qed.

Lemma max_count_attained (counts : list nat) :
  counts <> [] -> In (fold_right Nat.max 0 counts) counts.
Proof.
  induction counts as [|a counts IH]; [congruence|]. intros _. simpl.
  destruct counts as [|b counts]; [left; simpl; lia|].
  destruct (Nat.max_spec a (fold_right Nat.max 0 (b :: counts))) as [[_ E]|[_ E]];
    rewrite E; [right; apply IH; discriminate | now left].
Qed.

Section ModeFacts.
Variable K : Type.
Variable eqb ltb : K -> K -> bool.
Hypothesis eqb_true : forall x y, eqb x y = true <-> x = y.
Variable dec : forall x y : K, {x = y} + {x <> y}.

(** A value is in the mode exactly when it occurs, and no value occurs
    more often. *)
Lemma mode_In (col : list (option K)) (k : K) :
  In k (mode eqb ltb col)
  <-> 0 < count_occ dec (dropna col) k
      /\ forall k', count_occ dec (dropna col) k'
                    <= count_occ dec (dropna col) k.
Proof.
  unfold mode. rewrite sorted_In, in_map_iff.
  set (counts := Counter eqb (dropna col)).
  set (top := fold_right Nat.max 0 (map snd counts)).
  assert (Hbound : forall k', count_occ dec (dropna col) k' <= top).
  { intros k'. destruct (count_occ dec (dropna col) k') eqn:E; [lia|].
    rewrite <- E. apply max_count_bound.
    change (count_occ dec (dropna col) k')
      with (snd (k', count_occ dec (dropna col) k')).
    apply in_map, (Counter_In_iff eqb eqb_true dec). split; [lia | reflexivity]. }
  split.
  - intros ([k0 c] & E & Hin). simpl in E. subst k0.
    apply filter_In in Hin as [Hin Htop]. simpl in Htop.
    apply Nat.eqb_eq in Htop.
    apply (Counter_In_iff eqb eqb_true dec) in Hin as [Hpos Hc].
    split; [now rewrite <- Hc|]. intros k'. rewrite <- Hc, Htop. apply Hbound.
  - intros [Hpos Hmax]. exists (k, count_occ dec (dropna col) k).
    split; [reflexivity|]. apply filter_In. split.
    + apply (Counter_In_iff eqb eqb_true dec). now split.
    + simpl. apply Nat.eqb_eq. apply Nat.le_antisymm; [apply Hbound|].
      assert (Hne : map snd counts <> []).
      { intros Hnil. apply map_eq_nil in Hnil.
        assert (Hin : In (k, count_occ dec (dropna col) k) counts)
          by (apply (Counter_In_iff eqb eqb_true dec); now split).
        rewrite Hnil in Hin. contradiction. }
      apply max_count_attained in Hne. fold top in Hne.
      apply in_map_iff in Hne as ([k' c'] & E & Hin). simpl in E. subst c'.
      apply (Counter_In_iff eqb eqb_true dec) in Hin as [_ ->]. apply Hmax.
Qed.

(** The mode is empty exactly when the column has no value. *)
Lemma mode_nil (col : list (option K)) :
  mode eqb ltb col = [] <-> dropna col = [].
Proof.
  split.
  - intros Hnil. destruct (dropna col) as [|x xs] eqn:E; [reflexivity|].
    exfalso.
    set (counts := Counter eqb (x :: xs)).
    assert (Hne : map snd counts <> []).
    { intros H0. apply map_eq_nil in H0.
      assert (Hin : In (x, count_occ dec (x :: xs) x) counts).
      { apply (Counter_In_iff eqb eqb_true dec). split; [|reflexivity].
        apply count_occ_In. now left. }
      rewrite H0 in Hin. contradiction. }
    apply max_count_attained in Hne.
    apply in_map_iff in Hne as ([k c] & Ek & Hin). simpl in Ek.
    assert (Hk : In k (mode eqb ltb col)).
    { unfold mode. rewrite E. apply sorted_In.
      change k with (fst (k, c)). apply in_map, filter_In.
      split; [exact Hin|]. simpl. fold counts. rewrite Ek. apply Nat.eqb_refl. }
    rewrite Hnil in Hk. contradiction.
  - intros E. unfold mode. now rewrite E.
Qed.

End ModeFacts.

Lemma NoDup_map_filter {A B} (keep : A -> bool) (key : A -> B) (entries : list A) :
  NoDup (map key entries) -> NoDup (map key (filter keep entries)).
Proof.
  intros H. induction entries as [|x l IH]; simpl in *; [constructor|].
  inversion H as [|? ? Hx Hl]; subst.
  destruct (keep x); simpl; [|now apply IH].
  constructor; [|now apply IH].
  intros Hin. apply Hx. apply in_map_iff in Hin as (y & E & Hy).
  apply filter_In in Hy as [Hy _]. rewrite <- E. now apply in_map.
Qed.

Lemma mode_Z_sorted (col : list (option Z)) :
  StronglySorted Z.lt (mode Z.eqb Z.ltb col).
Proof.
  unfold mode. apply sorted_Z_strict, NoDup_map_filter.
  apply Counter_keys_NoDup, Z.eqb_eq.
Qed.

Lemma iloc0_ok {K} (s : list K) (x : K) :
  iloc0 s = Ok x -> exists rest, s = x :: rest.
Proof. destruct s; simpl; [discriminate|]. intros E. inversion E. eauto. Qed.

Lemma iloc0_outcome {K} (s : list K) :
  (s = [] /\ iloc0 s = Raise IndexError) \/ (exists x, s <> [] /\ iloc0 s = Ok x).
Proof.
  destruct s as [|x s]; [now left | right]. exists x. split; [discriminate | reflexivity].
Qed.

Lemma dropna_nil_iff {K} (col : list (option K)) :
  dropna col = [] <-> Forall (fun x => x = None) col.
Proof.
  induction col as [|[x|] col IH]; simpl.
  - split; [constructor | reflexivity].
  - split; [discriminate | intros H; inversion H; discriminate].
  - rewrite IH. split; [now constructor | intros H; now inversion H].
Qed.

(** X18: [generate_summary_report] has two outcomes only: a report, or
    [IndexError].  It raises exactly when no row has a year, or no row
    has a journal, or no row has a source: on cleaned data, where every
    row has a year, exactly when the data set is empty or a whole
    column of journals or of sources is missing. *)
Theorem generate_summary_report_outcome :
  (forall cleaned,
      (Batch.generate_summary_report cleaned = Raise IndexError
       <-> Forall (fun r => year r = None) cleaned
           \/ Forall (fun r => journal r = None) cleaned
           \/ Forall (fun r => source r = None) cleaned)
      /\ (forall e, Batch.generate_summary_report cleaned = Raise e ->
                    e = IndexError))
  /\ (forall (parser : DateParser) (raw : list RawRow),
      Batch.generate_summary_report (Batch.clean_rows raw) = Raise IndexError
      <-> Batch.clean_rows raw = []
          \/ Forall (fun r => journal r = None) (Batch.clean_rows raw)
          \/ Forall (fun r => source r = None) (Batch.clean_rows raw)).
Proof.
  assert (Hgen : forall cleaned,
    (Batch.generate_summary_report cleaned = Raise IndexError
       <-> Forall (fun r => year r = None) cleaned
           \/ Forall (fun r => journal r = None) cleaned
           \/ Forall (fun r => source r = None) cleaned)
    /\ (forall e, Batch.generate_summary_report cleaned = Raise e ->
                  e = IndexError)).
  { intros cleaned. unfold Batch.generate_summary_report.
    rewrite <- !Forall_map with (f := year) (P := fun x => x = None).
    rewrite <- !Forall_map with (f := journal) (P := fun x => x = None).
    rewrite <- !Forall_map with (f := source) (P := fun x => x = None).
    rewrite <- !dropna_nil_iff.
    rewrite <- (mode_nil Z.eqb Z.ltb Z.eqb_eq Z.eq_dec).
    rewrite <- !(mode_nil String.eqb String.ltb String.eqb_eq string_dec).
    destruct (iloc0_outcome (mode Z.eqb Z.ltb (map year cleaned)))
      as [[E1 ->]|(y & N1 & ->)]; cbn [bind].
    { split; [split; [now left | reflexivity] | congruence]. }
    destruct (iloc0_outcome (mode String.eqb String.ltb (map journal cleaned)))
      as [[E2 ->]|(j & N2 & ->)]; cbn [bind].
    { split; [split; [now (right; left) | reflexivity] | congruence]. }
    destruct (iloc0_outcome (mode String.eqb String.ltb (map source cleaned)))
      as [[E3 ->]|(s & N3 & ->)]; cbn [bind].
    { split; [split; [now (right; right) | reflexivity] | congruence]. }
    split; [|discriminate]. split; [discriminate|]. tauto. }
  split; [exact Hgen|]. intros parser raw.
  rewrite (proj1 (Hgen _)).
  assert (Hy : Forall (fun r => year r = None) (Batch.clean_rows raw)
               <-> Batch.clean_rows raw = []).
  { split.
    - intros H. pose proof (clean_rows_has_year raw) as Hhas.
      destruct (Batch.clean_rows raw) as [|r l]; [reflexivity|].
      inversion H as [|? ? Hr _]; inversion Hhas as [|? ? Hr' _]; subst.
      unfold has_year in Hr'. rewrite Hr in Hr'. discriminate.
    - intros ->. constructor. }
  now rewrite Hy.
Qed.

(** X19: in the report the total is the number of rows; the most
    active year is a year of the data, no year has more rows, and
    among the years with as many rows it is the earliest; the most
    common journal and the primary source are values that no other
    value of their column outnumbers. *)
Theorem generate_summary_report_contents
        (cleaned : list Row) (report : Batch.Report) :
  Batch.generate_summary_report cleaned = Ok report ->
  let rows_of_year y :=
    length (filter (fun r => opt_eqb Z.eqb (year r) (Some y)) cleaned) in
  let rows_of get (k : string) :=
    length (filter (fun r => opt_eqb String.eqb (get r) (Some k)) cleaned) in
  Batch.total report = length cleaned
  /\ 0 < rows_of_year (Batch.most_active_year report)
  /\ (forall y, rows_of_year y <= rows_of_year (Batch.most_active_year report))
  /\ (forall y, rows_of_year y = rows_of_year (Batch.most_active_year report) ->
                (Batch.most_active_year report <= y)%Z)
  /\ 0 < rows_of journal (Batch.most_common_journal report)
  /\ (forall j, rows_of journal j
                <= rows_of journal (Batch.most_common_journal report))
  /\ 0 < rows_of source (Batch.primary_source report)
  /\ (forall s, rows_of source s <= rows_of source (Batch.primary_source report)).
Proof.
  unfold Batch.generate_summary_report. intros H. cbv zeta.
  destruct (iloc0 (mode Z.eqb Z.ltb (map year cleaned))) as [y|] eqn:Ey;
    [|discriminate].
  destruct (iloc0 (mode String.eqb String.ltb (map journal cleaned)))
    as [j|] eqn:Ej; [|discriminate].
  destruct (iloc0 (mode String.eqb String.ltb (map source cleaned)))
    as [s|] eqn:Es; [|discriminate].
  cbn [bind] in H. inversion H; subst report; clear H. cbn.
  apply iloc0_ok in Ey as [ys Ey], Ej as [js Ej], Es as [ss Es].
  assert (Hy : In y (mode Z.eqb Z.ltb (map year cleaned)))
    by (rewrite Ey; now left).
  assert (Hj : In j (mode String.eqb String.ltb (map journal cleaned)))
    by (rewrite Ej; now left).
  assert (Hs : In s (mode String.eqb String.ltb (map source cleaned)))
    by (rewrite Es; now left).
  apply (mode_In Z.eqb Z.ltb Z.eqb_eq Z.eq_dec) in Hy as [Hy1 Hy2].
  apply (mode_In String.eqb String.ltb String.eqb_eq string_dec) in Hj as [Hj1 Hj2].
  apply (mode_In String.eqb String.ltb String.eqb_eq string_dec) in Hs as [Hs1 Hs2].
  split; [reflexivity|].
  split; [now rewrite <- count_occ_years|].
  split; [intros y'; rewrite <- !count_occ_years; apply Hy2|].
  split.
  - intros y' E. rewrite <- !count_occ_years in E.
    assert (Hy' : In y' (mode Z.eqb Z.ltb (map year cleaned))).
    { apply (mode_In Z.eqb Z.ltb Z.eqb_eq Z.eq_dec). rewrite E.
      split; [assumption | exact Hy2]. }
    pose proof (mode_Z_sorted (map year cleaned)) as Hsorted.
    rewrite Ey in Hsorted, Hy'. inversion Hsorted as [|? ? _ Hlt]; subst.
    destruct Hy' as [<-|Hin]; [lia|].
    rewrite Forall_forall in Hlt. specialize (Hlt _ Hin). lia.
  - split; [now rewrite <- count_occ_cells|].
    split; [intros j'; rewrite <- !count_occ_cells; apply Hj2|].
    split; [now rewrite <- count_occ_cells|].
    intros s'. rewrite <- !count_occ_cells. apply Hs2.
Qed.

Lemma generate_summary_report_contents_witness :
  exists report,
    Batch.generate_summary_report (@Batch.clean_rows Sample.iso_parser Sample.lines)
    = Ok report
    /\ Batch.total report = 1
    /\ (forall y,
          length (filter (fun r => opt_eqb Z.eqb (year r) (Some y))
                         (@Batch.clean_rows Sample.iso_parser Sample.lines))
          <= length (filter (fun r => opt_eqb Z.eqb (year r)
                                              (Some (Batch.most_active_year report)))
                            (@Batch.clean_rows Sample.iso_parser Sample.lines))).
Proof.
  eexists. split; [reflexivity|].
  pose proof (@generate_summary_report_contents
                (@Batch.clean_rows Sample.iso_parser Sample.lines) _ eq_refl)
    as (H1 & _ & H3 & _).
  split; [exact H1 | exact H3].
Defined.

(* ------------------------------------------------------------------ *)
(** ** What the frequency table leaves out *)
(* ------------------------------------------------------------------ *)

Lemma sum_counts_app {K} (c1 c2 : list (K * nat)) :
  sum_counts (c1 ++ c2) = sum_counts c1 + sum_counts c2.
Proof. induction c1 as [|e c1 IH]; simpl; [reflexivity | rewrite IH; lia]. Qed.

Lemma sum_counts_firstn {K} (n : nat) (c : list (K * nat)) :
  sum_counts (firstn n c) <= sum_counts c.
Proof.
  rewrite <- (firstn_skipn n c) at 2. rewrite sum_counts_app. lia.
Qed.

(** X20: the frequency table lists each token at most once and its
    counts add up to no more than the number of tokens; a token left
    out of the table occurs no more often than any token in it; and
    when there are no more than [n] distinct tokens the table lists
    them all, the counts adding up to the number of tokens. *)
Theorem top_n_is_the_top (tokens : list string) (n : nat) :
  NoDup (map fst (top_n tokens n))
  /\ sum_counts (top_n tokens n) <= length tokens
  /\ (forall w c w',
        In (w, c) (top_n tokens n) -> In w' tokens ->
        ~ In w' (map fst (top_n tokens n)) ->
        count_occ string_dec tokens w' <= c)
  /\ (length (nodup string_dec tokens) <= n ->
      sum_counts (top_n tokens n) = length tokens
      /\ forall w, In w tokens ->
                   In (w, count_occ string_dec tokens w) (top_n tokens n)).
Proof.
  unfold top_n, most_common.
  set (full := sorted count_desc (Counter String.eqb tokens)).
  assert (Hkeys : NoDup (map fst full)).
  { apply sorted_keys_NoDup, Counter_keys_NoDup, String.eqb_eq. }
  assert (Hfull : forall w, In w tokens ->
                            In (w, count_occ string_dec tokens w) full).
  { intros w Hw. apply sorted_In.
    apply (Counter_In_iff String.eqb String.eqb_eq string_dec).
    split; [now apply count_occ_In | reflexivity]. }
  assert (Hsum : sum_counts full = length tokens).
  { unfold full. rewrite (sum_counts_perm (sorted_perm _ _)).
    apply sum_counts_Counter. }
  split; [|split; [|split]].
  - rewrite <- (firstn_skipn n full), map_app in Hkeys.
    now apply NoDup_app_remove_r in Hkeys.
  - rewrite <- Hsum. apply sum_counts_firstn.
  - intros w c w' Hw Hw' Hout. specialize (Hfull w' Hw').
    rewrite <- (firstn_skipn n full) in Hfull.
    apply in_app_or in Hfull as [Hin|Hin].
    + exfalso. apply Hout.
      change w' with (fst (w', count_occ string_dec tokens w')).
      now apply in_map.
    + assert (Hs : StronglySorted (fun a b => snd b <= snd a)
                     (firstn n full ++ skipn n full)).
      { rewrite firstn_skipn. apply sorted_count_desc. }
      exact (StronglySorted_app_cross _ _ Hs _ _ Hw Hin).
  - intros Hn.
    assert (Hall : firstn n full = full).
    { apply firstn_all2. unfold full. rewrite sorted_length.
      etransitivity; [apply (Counter_length String.eqb String.eqb_eq string_dec)|].
      exact Hn. }
    rewrite Hall. split; [exact Hsum | exact Hfull].
Qed.

Example top_n_leaves_out_the_rarest :
  top_n ["cats"; "virus"; "study"; "virus"; "study"; "virus"] 2
  = [("virus", 3); ("study", 2)].
Proof. reflexivity. Qed.
